(** * Order entry: the Express order registry and the MobX order store

    A shallow embedding of the two stateful parts of the repository:

    - the custom server ([server.js]): the in-memory [orders] array and the
      three handlers [POST /api/order], [GET /api/orders] and
      [DELETE /api/orders];
    - the client store ([src/stores/OrderStore.ts]): the observable
      [orders] / [isLoading] pair and the actions [fetchOrders] and
      [submitOrder].

    JavaScript values are embedded as a datatype, objects as finite maps
    from property names to values, the registry as a list, the handlers as
    computations in a state-and-exception monad, and the asynchronous
    store actions as resumable tasks that suspend at every [await]. *)

From Stdlib Require Import PrimFloat String Ascii ZArith.
From stdpp Require Import gmap strings list pretty.

Local Set Warnings "-register-all,-inexact-float".
Local Open Scope Z_scope.

(** ** JavaScript values *)

Module Js.

(** The values that travel through the code: what [JSON.parse] produces
    (null, booleans, IEEE doubles, strings, arrays, objects), and
    [undefined], which reading an absent property yields. *)
Inductive value :=
| VUndefined
| VNull
| VBool (b : bool)
| VNum (n : float)
| VStr (s : string)
| VArr (l : list value)
| VObj (o : gmap string value).

(** What a [throw], a failed property read or a rejected promise carries. *)
Inductive exn :=
| TypeError (msg : string)
| SyntaxError (msg : string)
| Thrown (reason : value).

(** [ToBoolean]: the test behind [!v], [v || w] and [if (v)]. *)
Definition ToBoolean (v : value) : bool :=
  match v with
  | VUndefined | VNull => false
  | VBool b => b
  | VNum n => negb (PrimFloat.is_zero n || PrimFloat.is_nan n)
  | VStr s => negb (String.eqb s "")
  | VArr _ | VObj _ => true
  end.

(** [v.k] for the property names the code reads ([symbol], [orderType],
    [quantity], [side], [order], [orders]): none of them is defined on a
    built-in prototype, so only an object's own properties can answer;
    reading a property of [undefined] or [null] throws. *)
Definition get (v : value) (k : string) : exn + value :=
  match v with
  | VUndefined => inl (TypeError "Cannot read properties of undefined")
  | VNull => inl (TypeError "Cannot read properties of null")
  | VObj o => inr (default VUndefined (o !! k))
  | _ => inr VUndefined
  end.

(** [ToString(v)], as a template literal, a string concatenation or the
    [Date] constructor applies it to a value, throws on an object that
    cannot be converted to a primitive. Among the values JSON can produce
    these are the objects with a member named [toString] (it hides
    [Object.prototype.toString] and cannot be called, and [valueOf] does
    not return a primitive), and the arrays one of whose elements fails in
    this way ([Array.prototype.join] converts every element other than
    [null] and [undefined]). *)
Fixpoint ToString_fails (v : value) : bool :=
  match v with
  | VObj o => bool_decide (is_Some (o !! "toString"))
  | VArr l => existsb ToString_fails l
  | _ => false
  end.

(** The conversion itself; the text it gives where it succeeds goes to the
    console or into the page and is not modelled. *)
Definition ToString (v : value) : exn + () :=
  if ToString_fails v then inl (TypeError "Cannot convert object to primitive value")
  else inr ().

(** The number a non-negative integer such as [array.length] denotes. *)
Fixpoint number_of_pos (p : positive) : float :=
  match p with
  | xH => 1
  | xO p => 2 * number_of_pos p
  | xI p => 2 * number_of_pos p + 1
  end%float.

Definition number_of_nat (n : nat) : float :=
  match N.of_nat n with
  | N0 => 0%float
  | Npos p => number_of_pos p
  end.

(** Own enumerable properties, as the spread [...v] copies them: an
    object's properties, an array's elements and a string's characters
    under their indices, nothing for the other values. *)
Definition index_props (l : list value) : gmap string value :=
  list_to_map (imap (λ i v, (pretty i, v)) l).

Definition own_props (v : value) : gmap string value :=
  match v with
  | VObj o => o
  | VArr l => index_props l
  | VStr s => index_props ((λ c, VStr (String c "")) <$> list_ascii_of_string s)
  | _ => ∅
  end.

(** Object literals [{ k: v, ...w, k': v' }]: the members are defined from
    left to right, a later member overwriting an earlier one of the same
    name. *)
Inductive member :=
| field (k : string) (v : value)
| spread (v : value).

Definition define (o : gmap string value) (m : member) : gmap string value :=
  match m with
  | field k v => <[k:=v]> o
  | spread v => own_props v ∪ o
  end.

Definition object (ms : list member) : value := VObj (foldl define ∅ ms).

(** [String.prototype.substr(start, length)]. *)
Definition substr (start len : nat) (s : string) : string :=
  String.substring start len s.

(** [occurs c s]: the character [c] appears in [s]. *)
Fixpoint occurs (c : ascii) (s : string) : Prop :=
  match s with
  | EmptyString => False
  | String a s => a = c ∨ occurs c s
  end.

(** [Date.prototype.toISOString] of a time value in milliseconds since the
    epoch: [YYYY-MM-DDTHH:mm:ss.sssZ], with the expanded signed six-digit
    year outside 0..9999. *)
Definition msPerDay : Z := 86400000.

Definition civil_from_days (day : Z) : Z * Z * Z :=
  let z := day + 719468 in
  let era := z / 146097 in
  let doe := z - era * 146097 in
  let yoe := (doe - doe / 1460 + doe / 36524 - doe / 146096) / 365 in
  let doy := doe - (365 * yoe + yoe / 4 - yoe / 100) in
  let mp := (5 * doy + 2) / 153 in
  let d := doy - (153 * mp + 2) / 5 + 1 in
  let m := if mp <? 10 then mp + 3 else mp - 9 in
  (yoe + era * 400 + (if m <=? 2 then 1 else 0), m, d).

Fixpoint zeros (n : nat) : string :=
  match n with
  | O => ""
  | S n => String "0" (zeros n)
  end.

Definition padStart (width : nat) (n : Z) : string :=
  let s := pretty n in zeros (width - String.length s) +:+ s.

Definition year_string (y : Z) : string :=
  if (0 <=? y) && (y <=? 9999) then padStart 4 y
  else (if y <? 0 then "-" else "+") +:+ padStart 6 (Z.abs y).

Definition toISOString (t : Z) : string :=
  let '(y, m, d) := civil_from_days (t / msPerDay) in
  let ms := t mod msPerDay in
  year_string y +:+ "-" +:+ padStart 2 m +:+ "-" +:+ padStart 2 d +:+ "T" +:+
  padStart 2 (ms / 3600000) +:+ ":" +:+ padStart 2 (ms / 60000 mod 60) +:+ ":" +:+
  padStart 2 (ms / 1000 mod 60) +:+ "." +:+ padStart 3 (ms mod 1000) +:+ "Z".

(** *** The order of timestamps *)

(** The time values whose year has four digits, from
    0000-01-01T00:00:00.000Z to 9999-12-31T23:59:59.999Z. *)
Definition four_digit_year (t : Z) : Prop :=
  -62167219200000 ≤ t ≤ 253402300799999.

(** Timestamps are compared as JavaScript compares strings: character by
    character. *)
Definition timestamp_le (a b : string) : Prop := String.leb a b = true.

(** [digits w n]: the [w] decimal digits of [n], the most significant
    first. *)
Fixpoint digits (w : nat) (n : Z) : string :=
  match w with
  | O => ""
  | S w => String (pretty_N_char (Z.to_N (n / 10 ^ Z.of_nat w)))
                  (digits w (n mod 10 ^ Z.of_nat w))
  end.

(** The steps of [civil_from_days], by name: year and day within a
    400-year era, month counted from March, day of the month, month. *)
Definition yoe_of (doe : Z) : Z :=
  (doe - doe / 1460 + doe / 36524 - doe / 146096) / 365.

Definition doy_of (doe : Z) : Z :=
  doe - (365 * yoe_of doe + yoe_of doe / 4 - yoe_of doe / 100).

Definition mp_of (doy : Z) : Z := (5 * doy + 2) / 153.

Definition d_of (doy : Z) : Z := doy - (153 * mp_of doy + 2) / 5 + 1.

Definition m_of (mp : Z) : Z := if mp <? 10 then mp + 3 else mp - 9.

(** Calendar dates in their order. *)
Definition date_lt (a b : Z * Z * Z) : Prop :=
  a.1.1 < b.1.1 ∨ (a.1.1 = b.1.1 ∧ (a.1.2 < b.1.2 ∨ (a.1.2 = b.1.2 ∧ a.2 < b.2))).

(** The text of a timestamp with a four-digit year, field by field. *)
Definition iso_fields (y m d h mi s ms : Z) : string :=
  digits 4 y +:+ String "-" (digits 2 m +:+ String "-" (digits 2 d +:+ String "T"
    (digits 2 h +:+ String ":" (digits 2 mi +:+ String ":" (digits 2 s +:+ String "."
      (digits 3 ms +:+ String "Z" "")))))).

End Js.

(** ** The server: the order registry and its three handlers *)

Module Server.
Import Js.

(** What one [POST /api/order] reads from its surroundings: the clock when
    [generateId] calls [Date.now()], the base-36 text
    [Math.random().toString(36)] of the random draw, and the clock when the
    handler evaluates [new Date()]. *)
Record Env := {
  Date_now : Z;
  Math_random_base36 : string;
  new_Date : Z;
}.

(** Handlers run against the module-level [let orders = []]; a handler may
    throw, and what it did to [orders] before throwing stays done. *)
Definition M (A : Type) : Type := list value → (exn + A) * list value.

#[global] Instance M_ret : MRet M := λ A a orders, (inr a, orders).

#[global] Instance M_bind : MBind M := λ A B f m orders,
  match m orders with
  | (inr a, orders') => f a orders'
  | (inl e, orders') => (inl e, orders')
  end.

Definition lift {A} (r : exn + A) : M A := λ orders, (r, orders).

Definition try_catch {A} (m : M A) (handler : exn → M A) : M A := λ orders,
  match m orders with
  | (inl e, orders') => handler e orders'
  | (inr a, orders') => (inr a, orders')
  end.

Definition orders_length : M nat := λ orders, (inr (length orders), orders).
Definition orders_read : M (list value) := λ orders, (inr orders, orders).
Definition orders_push (v : value) : M unit := λ orders, (inr (), orders ++ [v]).
Definition orders_assign (l : list value) : M unit := λ _, (inr (), l).

(** [!v] and the short-circuit [a || b] on conditions. *)
Definition not_ (m : M value) : M bool := v ← m; mret (negb (ToBoolean v)).
Definition or_else (a b : M bool) : M bool :=
  a ≫= λ x : bool, if x then mret true else b.
Infix "|||" := or_else (at level 50, left associativity).

Definition prop (v : value) (k : string) : M value := lift (get v k).

(** [res.status(code).json(payload)] *)
Record Response := {
  status : N;
  json : value;
}.

Definition generateId (env : Env) : string :=
  "order_" +:+ pretty (Date_now env) +:+ "_" +:+ substr 2 9 (Math_random_base36 env).

Definition post_order (env : Env) (req_body : value) : M Response :=
  try_catch
    (let orderData := req_body in
     missing ← not_ (prop orderData "symbol") ||| not_ (prop orderData "orderType")
               ||| not_ (prop orderData "quantity") ||| not_ (prop orderData "side");
     if (missing : bool) then
       mret {| status := 400;
               json := object [field "success" (VBool false);
                               field "error" (VStr "Missing required fields")] |}
     else
       let order := object [field "id" (VStr (generateId env));
                            spread orderData;
                            field "timestamp" (VStr (toISOString (new_Date env)))] in
       orders_push order;;
       id ← prop order "id";
       lift (ToString id);; (* console.log(`Order created: ${order.id}`) *)
       mret {| status := 201;
               json := object [field "success" (VBool true); field "order" order] |})
    (λ error,
       mret {| status := 500;
               json := object [field "success" (VBool false);
                               field "error" (VStr "Failed to create order")] |}).

Definition get_orders : M Response :=
  try_catch
    (orders ← orders_read;
     count ← orders_length;
     mret {| status := 200;
             json := object [field "success" (VBool true);
                             field "orders" (VArr orders);
                             field "count" (VNum (number_of_nat count))] |})
    (λ error,
       mret {| status := 500;
               json := object [field "success" (VBool false);
                               field "error" (VStr "Failed to fetch orders")] |}).

Definition delete_orders : M Response :=
  try_catch
    (count ← orders_length;
     orders_assign [];;
     mret {| status := 200;
             json := object [field "success" (VBool true);
                             field "message" (VStr ("Cleared " +:+ pretty count +:+ " orders"))] |})
    (λ error,
       mret {| status := 500;
               json := object [field "success" (VBool false);
                               field "error" (VStr "Failed to clear orders")] |}).

(** The API surface of the server; every other route goes to Next.js and
    does not touch [orders]. *)
Inductive Request :=
| POST_order (env : Env) (body : value)
| GET_orders
| DELETE_orders.

Definition handle (r : Request) : M Response :=
  match r with
  | POST_order env body => post_order env body
  | GET_orders => get_orders
  | DELETE_orders => delete_orders
  end.

(** Requests are served one at a time, in arrival order. *)
Fixpoint serve (rs : list Request) (orders : list value)
  : list (exn + Response) * list value :=
  match rs with
  | [] => ([], orders)
  | r :: rs =>
      let '(answer, orders) := handle r orders in
      let '(answers, orders) := serve rs orders in
      (answer :: answers, orders)
  end.

(** The registry contents a server process can hold: it starts empty and
    changes only by serving requests. *)
Inductive reachable : list value → Prop :=
| reachable_start : reachable []
| reachable_serve r orders : reachable orders → reachable (handle r orders).2.

(** The check the create handler makes of the four required fields, as a
    predicate on request bodies. *)
Definition has_required (body : value) : bool :=
  match body with
  | VObj o =>
      ToBoolean (default VUndefined (o !! "symbol"))
      && ToBoolean (default VUndefined (o !! "orderType"))
      && ToBoolean (default VUndefined (o !! "quantity"))
      && ToBoolean (default VUndefined (o !! "side"))
  | _ => false
  end.

Definition nullish (v : value) : bool :=
  match v with
  | VUndefined | VNull => true
  | _ => false
  end.

(** The record a request is stored as, and the answers of the handlers,
    by name. *)
Definition stored_order (env : Env) (body : value) : value :=
  object [field "id" (VStr (generateId env));
          spread body;
          field "timestamp" (VStr (toISOString (new_Date env)))].

(** The [id] the stored record ends up with: the body's own when it has
    one, the generated one otherwise. *)
Definition stored_id (env : Env) (body : value) : value :=
  match own_props body !! "id" with
  | Some v => v
  | None => VStr (generateId env)
  end.

Definition created (order : value) : Response :=
  {| status := 201;
     json := object [field "success" (VBool true); field "order" order] |}.

Definition missing_required : Response :=
  {| status := 400;
     json := object [field "success" (VBool false);
                     field "error" (VStr "Missing required fields")] |}.

Definition create_failed : Response :=
  {| status := 500;
     json := object [field "success" (VBool false);
                     field "error" (VStr "Failed to create order")] |}.

(** The answer to a create request that passed the check: 201 with the
    stored record, or 500 when writing the record's [id] to the log threw. *)
Definition accepted_answer (env : Env) (body : value) : exn + Response :=
  if ToString_fails (stored_id env body) then inr create_failed
  else inr (created (stored_order env body)).

Definition listing (orders : list value) : Response :=
  {| status := 200;
     json := object [field "success" (VBool true);
                     field "orders" (VArr orders);
                     field "count" (VNum (number_of_nat (length orders)))] |}.

Definition cleared (count : nat) : Response :=
  {| status := 200;
     json := object [field "success" (VBool true);
                     field "message" (VStr ("Cleared " +:+ pretty count +:+ " orders"))] |}.

(** A sequence of create requests, each with what it reads from its
    surroundings. *)
Definition creates (reqs : list (Env * value)) : list Request :=
  (λ r, POST_order r.1 r.2) <$> reqs.

(** *** What a body or a record may be asked *)

Definition required_fields : list string :=
  ["symbol"; "orderType"; "quantity"; "side"].

(** A body from which one of the four required members is missing. *)
Definition lacks_required_field (body : value) : Prop :=
  ∃ k, k ∈ required_fields ∧ own_props body !! k = None.

Definition is_string (v : exn + value) (s : string) : bool :=
  match v with
  | inr (VStr t) => String.eqb t s
  | _ => false
  end.

Definition at_least (min : float) (v : exn + value) : bool :=
  match v with
  | inr (VNum n) => PrimFloat.leb min n
  | _ => false
  end.

(** The rule the order form enforces before it submits
    ([components/OrderForm.tsx]): [price] is required, and at least 0.01,
    for Limit and Stop Limit orders; [stopPrice] is required, and at least
    0.01, for Stop Limit orders. *)
Definition conditional_rule (order : value) : bool :=
  let orderType := get order "orderType" in
  implb (is_string orderType "Limit" || is_string orderType "Stop Limit")
        (at_least 0.01 (get order "price"))
  && implb (is_string orderType "Stop Limit") (at_least 0.01 (get order "stopPrice")).

End Server.

(** ** The client: the MobX order store *)

Module OrderStore.
Import Js.

(** [class OrderStore]: the two observable fields. [orders] is declared
    [Order[]], but [setOrders] assigns whatever a response carried, so the
    field holds a value. *)
Record Store := {
  orders : value;
  isLoading : bool;
}.

(** The part of the Fetch API the store uses. *)
Record RequestInit := {
  method : string;
  headers : list (string * string);
  body : value; (* the value [JSON.stringify] is applied to *)
}.

Record Response := {
  ok : bool;
}.

Inductive settled (A : Type) :=
| fulfilled (a : A)
| rejected (e : exn).
Arguments fulfilled {A} a.
Arguments rejected {A} e.

Inductive Promise : Type → Type :=
| fetch (url : string) (init : option RequestInit) : Promise Response
| Response_json (response : Response) : Promise value.

(** An [async] method body: it returns or throws, reads and assigns the
    store's fields, and suspends at each [await] until the promise
    settles. *)
Inductive Task (R : Type) : Type :=
| Return (r : R)
| Throw (e : exn)
| Read (k : Store → Task R)
| Assign (s : Store) (k : Task R)
| Await {X : Type} (p : Promise X) (k : settled X → Task R).
Arguments Return {R} r.
Arguments Throw {R} e.
Arguments Read {R} k.
Arguments Assign {R} s k.
Arguments Await {R X} p k.

Fixpoint bind {A B} (t : Task A) (f : A → Task B) : Task B :=
  match t with
  | Return a => f a
  | Throw e => Throw e
  | Read k => Read (λ s, bind (k s) f)
  | Assign s k => Assign s (bind k f)
  | Await p k => Await p (λ o, bind (k o) f)
  end.

#[global] Instance Task_ret : MRet Task := λ A a, Return a.
#[global] Instance Task_bind : MBind Task := λ A B f t, bind t f.

Definition await {X} (p : Promise X) : Task X :=
  Await p (λ o, match o with fulfilled a => Return a | rejected e => Throw e end).

Definition lift {A} (r : exn + A) : Task A :=
  match r with
  | inr a => Return a
  | inl e => Throw e
  end.

(** [try { t } catch (error) { handler }] *)
Fixpoint try_catch {A} (t : Task A) (handler : exn → Task A) : Task A :=
  match t with
  | Return a => Return a
  | Throw e => handler e
  | Read k => Read (λ s, try_catch (k s) handler)
  | Assign s k => Assign s (try_catch k handler)
  | Await p k => Await p (λ o, try_catch (k o) handler)
  end.

(** [try { t } finally { cleanup }]: the cleanup runs however [t] ends,
    and [t]'s return value or exception is kept. *)
Fixpoint try_finally {A} (t : Task A) (cleanup : Task unit) : Task A :=
  match t with
  | Return a => cleanup;; Return a
  | Throw e => cleanup;; Throw e
  | Read k => Read (λ s, try_finally (k s) cleanup)
  | Assign s k => Assign s (try_finally k cleanup)
  | Await p k => Await p (λ o, try_finally (k o) cleanup)
  end.

(** [a || b] on values. *)
Definition or_value (a b : value) : value := if ToBoolean a then a else b.

(** *** The actions *)

Definition addOrder (order : value) : Task unit :=
  Read (λ this,
    match orders this with
    | VArr l => Assign {| orders := VArr (l ++ [order]); isLoading := isLoading this |} (Return ())
    | VUndefined | VNull => Throw (TypeError "Cannot read properties of undefined")
    | _ => Throw (TypeError "this.orders.push is not a function")
    end).

Definition setOrders (orders : value) : Task unit :=
  Read (λ this, Assign {| orders := orders; isLoading := isLoading this |} (Return ())).

Definition clearOrders : Task unit :=
  Read (λ this, Assign {| orders := VArr []; isLoading := isLoading this |} (Return ())).

Definition setLoading (loading : bool) : Task unit :=
  Read (λ this, Assign {| orders := orders this; isLoading := loading |} (Return ())).

Definition fetchOrders : Task unit :=
  setLoading true;;
  try_finally
    (try_catch
       (response ← await (fetch "/api/orders" None);
        if ok response then
          data ← await (Response_json response);
          data_orders ← lift (get data "orders");
          setOrders (or_value data_orders (VArr []))
        else Return ())
       (λ error, Return ()))
    (setLoading false).

Definition post_init (orderData : value) : RequestInit :=
  {| method := "POST";
     headers := [("Content-Type", "application/json")];
     body := orderData |}.

Definition submitOrder (orderData : value) : Task bool :=
  setLoading true;;
  try_finally
    (try_catch
       (response ← await (fetch "/api/order" (Some (post_init orderData)));
        if ok response then
          data ← await (Response_json response);
          data_order ← lift (get data "order");
          addOrder data_order;;
          Return true
        else Return false)
       (λ error, Return false))
    (setLoading false).

(** *** Running a task *)

(** A task runs without interruption up to its next [await]. *)
Inductive Pending (R : Type) : Type :=
| Finished (r : R)
| Failed (e : exn)
| Suspended {X : Type} (p : Promise X) (k : settled X → Task R).
Arguments Finished {R} r.
Arguments Failed {R} e.
Arguments Suspended {R X} p k.

Fixpoint advance {R} (t : Task R) (s : Store) : Pending R * Store :=
  match t with
  | Return r => (Finished r, s)
  | Throw e => (Failed e, s)
  | Read k => advance (k s) s
  | Assign s' k => advance k s'
  | Await p k => (Suspended p k, s)
  end.

(** While a task is suspended the rest of the page keeps running: the
    world decides how each awaited promise settles and what the other
    actions have done to the store by then. *)
Record World := {
  settle : ∀ X, Promise X → settled X;
  meanwhile : ∀ X, Promise X → Store → Store;
}.
Arguments settle w {X} p.
Arguments meanwhile w {X} p s.

(** The promise an action returns settles with [inr] of its return value
    or [inl] of the exception that escaped it. *)
Fixpoint run {R} (w : World) (t : Task R) (s : Store) : (exn + R) * Store :=
  match t with
  | Return r => (inr r, s)
  | Throw e => (inl e, s)
  | Read k => run w (k s) s
  | Assign s' k => run w k s'
  | Await p k => run w (k (settle w p)) (meanwhile w p s)
  end.

Definition set_isLoading (loading : bool) (s : Store) : Store :=
  {| orders := orders s; isLoading := loading |}.

(** [new OrderStore()] *)
Definition initial : Store := {| orders := VArr []; isLoading := false |}.

End OrderStore.

(** ** Sample requests *)

Module Scenario.
Import Js Server.

Definition order_input (symbol orderType : string) (quantity : float) (side : string)
  : list member :=
  [field "symbol" (VStr symbol); field "orderType" (VStr orderType);
   field "quantity" (VNum quantity); field "side" (VStr side)].

Definition market_order : value := object (order_input "NIFTY" "Market" 10 "Buy").

Definition limit_without_price : value := object (order_input "TCS" "Limit" 5 "Sell").

Definition stop_limit_order : value :=
  object (order_input "RELIANCE" "Stop Limit" 15 "Buy"
          ++ [field "price" (VNum 2450); field "stopPrice" (VNum 2400)]).

Definition missing_side : value :=
  object [field "symbol" (VStr "NIFTY"); field "orderType" (VStr "Market");
          field "quantity" (VNum 10)].

Definition zero_quantity : value := object (order_input "NIFTY" "Market" 0 "Buy").

Definition market_with_price : value :=
  object (order_input "NIFTY" "Market" 10 "Buy" ++ [field "price" (VNum 100)]).

Definition with_client_id : value :=
  object (order_input "NIFTY" "Market" 10 "Buy"
          ++ [field "id" (VStr "order_1");
              field "timestamp" (VStr "1999-12-31T23:59:59.999Z")]).

(** A Market order whose [id] is an object that cannot be converted to a
    string. *)
Definition unloggable_id : value :=
  object (order_input "NIFTY" "Market" 10 "Buy"
          ++ [field "id" (object [field "toString" (VNum 0)])]).

(** Two requests served within one millisecond whose random draws agree
    on the nine characters that are kept, and a later one. *)
Definition env1 : Env :=
  {| Date_now := 1705314600000;
     Math_random_base36 := "0.4fzyo82mvyr1";
     new_Date := 1705314600000 |}.

Definition env2 : Env :=
  {| Date_now := 1705314600000;
     Math_random_base36 := "0.4fzyo82mv03k";
     new_Date := 1705314600000 |}.

Definition env3 : Env :=
  {| Date_now := 1705314600250;
     Math_random_base36 := "0.i";
     new_Date := 1705314600251 |}.

(** A request served after the system clock was set back by a second. *)
Definition env4 : Env :=
  {| Date_now := 1705314599001;
     Math_random_base36 := "0.9x3k7q1tbd2";
     new_Date := 1705314599001 |}.

(** Worlds in which nothing else touches the store: one in which the
    server answers, one in which the network is down. *)
Definition answering (response : OrderStore.Response)
    (data : OrderStore.settled value) : OrderStore.World :=
  {| OrderStore.settle := λ X p,
       match p in OrderStore.Promise X return OrderStore.settled X with
       | OrderStore.fetch _ _ => OrderStore.fulfilled response
       | OrderStore.Response_json _ => data
       end;
     OrderStore.meanwhile := λ X p s, s |}.

Definition offline : OrderStore.World :=
  {| OrderStore.settle := λ X p,
       match p in OrderStore.Promise X return OrderStore.settled X with
       | OrderStore.fetch _ _ => OrderStore.rejected (TypeError "Failed to fetch")
       | OrderStore.Response_json _ =>
           OrderStore.rejected (SyntaxError "Unexpected end of JSON input")
       end;
     OrderStore.meanwhile := λ X p s, s |}.

(** A store that already shows one order. *)
Definition showing_one : OrderStore.Store :=
  {| OrderStore.orders := VArr [stored_order env1 market_order];
     OrderStore.isLoading := false |}.

End Scenario.

(** ** Request logs *)

Module Registry.
Import Js Server.

(** What serving one request adds to the registry: the stored record of a
    create request that passes the check, nothing otherwise. *)
Definition appended (r : Request) : list value :=
  match r with
  | POST_order env body => if has_required body then [stored_order env body] else []
  | _ => []
  end.

Definition is_clear (r : Request) : bool :=
  match r with
  | DELETE_orders => true
  | _ => false
  end.

End Registry.

(** ** The table: what [components/OrderTable.tsx] returns *)

Module OrderTable.
Import Js.

(** The two library calls of the formatting helpers:
    [Number.prototype.toFixed] and [new Date(v).toLocaleString()], which
    depends on the browser's locale. *)
Record Formatter := {
  toFixed : float → nat → string;
  toLocaleString : value → string;
}.

(** One [<tr>]: its key and the content of its seven cells; [side_is_buy]
    selects the green style. *)
Record Row := {
  key : value;
  symbol : value;
  orderType : value;
  quantity : value;
  price : string;
  stopPrice : string;
  side_is_buy : bool;
  side : value;
  time : string;
}.

(** The element tree the component function returns, for React to
    render: the loading state, the empty state, or the table. *)
Inductive View :=
| Loading
| Empty
| Table (rows : list Row).

(** Evaluation that a [throw] ends. *)
#[global] Instance throwing_ret : MRet (sum exn) := λ A a, inr a.

#[global] Instance throwing_bind : MBind (sum exn) := λ A B f r,
  match r with
  | inr a => f a
  | inl e => inl e
  end.

#[global] Instance throwing_fmap : FMap (sum exn) := λ A B f r,
  match r with
  | inr a => inr (f a)
  | inl e => inl e
  end.

(** [formatPrice]: [price !== undefined ? "₹" + price.toFixed(2) : "N/A"];
    only a number has a [toFixed] to call. *)
Definition formatPrice (fmt : Formatter) (price : value) : exn + string :=
  match price with
  | VUndefined => inr "N/A"
  | VNum n => inr ("₹" +:+ toFixed fmt n 2)
  | VNull => inl (TypeError "Cannot read properties of null")
  | _ => inl (TypeError "price.toFixed is not a function")
  end.

(** [formatTimestamp]: [new Date(timestamp)] converts an object to a
    primitive first, which can throw; [toLocaleString] cannot. *)
Definition formatTimestamp (fmt : Formatter) (timestamp : value) : exn + string :=
  ToString timestamp;; mret (toLocaleString fmt timestamp).

(** React turns a key that is not [undefined] into a string
    (['' + key]) when the element is created. *)
Definition coerce_key (key : value) : exn + () :=
  match key with
  | VUndefined => inr ()
  | _ => ToString key
  end.

(** [v === "Buy"] *)
Definition is_Buy (v : value) : bool :=
  match v with
  | VStr s => String.eqb s "Buy"
  | _ => false
  end.

(** [orders.length === 0] *)
Definition length_is_zero (orders : value) : exn + bool :=
  match orders with
  | VUndefined => inl (TypeError "Cannot read properties of undefined")
  | VNull => inl (TypeError "Cannot read properties of null")
  | VArr l => inr (Nat.eqb (length l) 0)
  | VStr s => inr (String.eqb s "")
  | VObj o =>
      inr match o !! "length" with
          | Some (VNum n) => PrimFloat.is_zero n
          | _ => false
          end
  | _ => inr false
  end.

(** The row of one order: every cell reads a property of [order]; [key]
    is the value the row's key is made of. *)
Definition row (fmt : Formatter) (order : value) : exn + Row :=
  id ← get order "id";
  symbol ← get order "symbol";
  orderType ← get order "orderType";
  quantity ← get order "quantity";
  price ← get order "price" ≫= formatPrice fmt;
  stopPrice ← get order "stopPrice" ≫= formatPrice fmt;
  side ← get order "side";
  time ← get order "timestamp" ≫= formatTimestamp fmt;
  coerce_key id;;
  mret {| key := id; symbol := symbol; orderType := orderType;
          quantity := quantity; price := price; stopPrice := stopPrice;
          side_is_buy := is_Buy side; side := side; time := time |}.

(** [orders.map(f)]: only an array has a [map] to call; the first row that
    throws ends the rendering. *)
Definition map_rows (fmt : Formatter) (orders : value) : exn + list Row :=
  match orders with
  | VArr l => mapM (row fmt) l
  | VUndefined | VNull => inl (TypeError "Cannot read properties of undefined")
  | _ => inl (TypeError "orders.map is not a function")
  end.

(** The component, as a function of the store it observes. *)
Definition OrderTable (fmt : Formatter) (store : OrderStore.Store) : exn + View :=
  let orders := OrderStore.orders store in
  let isLoading := OrderStore.isLoading store in
  if isLoading then inr Loading
  else
    empty ← length_is_zero orders;
    if (empty : bool) then inr Empty
    else Table <$> map_rows fmt orders.

(** An order every cell of which can be filled: it is not [null] or
    [undefined], its [price] and [stopPrice] are each absent or a number,
    and its [id] and [timestamp] can be converted to a primitive. *)
Definition price_shown (price : exn + value) : bool :=
  match price with
  | inr VUndefined | inr (VNum _) => true
  | _ => false
  end.

Definition convertible (v : exn + value) : bool :=
  match v with
  | inr v => negb (ToString_fails v)
  | inl _ => false
  end.

Definition displayable (order : value) : bool :=
  price_shown (get order "price") && price_shown (get order "stopPrice")
  && convertible (get order "timestamp") && convertible (get order "id").

End OrderTable.

(** ** What a tab receives, and what it sends *)

Module Page.
Import Js.

(** [response.ok]: the status is in the range 200-299. *)
Definition status_ok (status : N) : bool :=
  ((200 <=? status) && (status <=? 299))%N.

(** The world of a tab that is otherwise left alone, given the response
    as the tab reads it: [answer] holds the status of the response and the
    value [response.json()] parses from its body. The trip of a payload
    through JSON text is not part of this definition. A response that is
    not JSON (the page Express sends when an exception escapes a handler)
    does not parse. *)
Definition backend (answer : exn + Server.Response) : OrderStore.World :=
  {| OrderStore.settle := λ X p,
       match p in OrderStore.Promise X return OrderStore.settled X with
       | OrderStore.fetch _ _ =>
           OrderStore.fulfilled
             {| OrderStore.ok := match answer with
                                 | inr response => status_ok (Server.status response)
                                 | inl _ => false
                                 end |}
       | OrderStore.Response_json _ =>
           match answer with
           | inr response => OrderStore.fulfilled (Server.json response)
           | inl _ => OrderStore.rejected (SyntaxError "Unexpected token <")
           end
       end;
     OrderStore.meanwhile := λ X p s, s |}.

(** A world in which other actions run while [response.json()] is
    awaited. *)
Definition with_interruption (w : OrderStore.World)
    (interruption : OrderStore.Store → OrderStore.Store) : OrderStore.World :=
  {| OrderStore.settle := @OrderStore.settle w;
     OrderStore.meanwhile := λ X p s,
       match p with
       | OrderStore.Response_json _ => interruption s
       | OrderStore.fetch _ _ => OrderStore.meanwhile w p s
       end |}.

(** The calls of [fetch] a task makes while it runs, in order: the URL and
    the options of each. *)
Fixpoint sent {R} (w : OrderStore.World) (t : OrderStore.Task R) (s : OrderStore.Store)
  : list (string * option OrderStore.RequestInit) :=
  match t with
  | OrderStore.Return _ | OrderStore.Throw _ => []
  | OrderStore.Read k => sent w (k s) s
  | OrderStore.Assign s' k => sent w k s'
  | OrderStore.Await p k =>
      match p with
      | OrderStore.fetch url init => [(url, init)]
      | OrderStore.Response_json _ => []
      end ++ sent w (k (OrderStore.settle w p)) (OrderStore.meanwhile w p s)
  end.

(** The HTTP method of a call: the one its options name, GET without. *)
Definition method_of (call : string * option OrderStore.RequestInit) : string :=
  match call.2 with
  | Some init => OrderStore.method init
  | None => "GET"
  end.

End Page.

(** ** A browser and two more orders, for the examples *)

Module Browser.
Import Js Server Scenario.

(** A browser whose formatting is given on the prices of the sample
    orders. *)
Definition sample_formatter : OrderTable.Formatter :=
  {| OrderTable.toFixed := λ n digits,
       if PrimFloat.eqb n 2450 then "2450.00"
       else if PrimFloat.eqb n 2400 then "2400.00"
       else "100.00";
     OrderTable.toLocaleString := λ timestamp, "15/1/2024, 10:30:00 am" |}.

(** A Limit order whose price is [null]. *)
Definition null_price_order : value :=
  object (order_input "TCS" "Limit" 5 "Sell" ++ [field "price" VNull]).

(** A store that shows the two sample orders. *)
Definition showing_two : OrderStore.Store :=
  {| OrderStore.orders := VArr [stored_order env1 market_order;
                                stored_order env3 stop_limit_order];
     OrderStore.isLoading := false |}.

End Browser.

(** ** Strings: the separator of a generated id *)

Section Strings.
Import Js.

Lemma pretty_N_go_underscore (x : N) (s : string) :
  ¬ occurs "_" s → ¬ occurs "_" (pretty_N_go x s).
Proof.
  revert s. induction (N.lt_wf_0 x) as [x _ IH]; intros s Hs.
  destruct (decide (x = 0%N)) as [->|Hx]; [by rewrite pretty_N_go_0|].
  rewrite pretty_N_go_step by lia.
  apply IH; [apply N.div_lt; lia|].
  simpl. intros [Hc|Hc]; [|done].
  revert Hc. unfold pretty_N_char. by repeat case_match.
Qed.

Lemma pretty_N_underscore (x : N) : ¬ occurs "_" (pretty x).
Proof.
  unfold pretty, pretty_N. case_decide.
  - simpl. by intros [?|?].
  - apply pretty_N_go_underscore. simpl. tauto.
Qed.

Lemma pretty_Z_underscore (z : Z) : ¬ occurs "_" (pretty z).
Proof.
  destruct z as [|p|p]; unfold pretty, pretty_Z.
  - simpl. by intros [?|?].
  - apply (pretty_N_underscore (N.pos p)).
  - simpl. intros [?|H]; [done|]. by apply (pretty_N_underscore (N.pos p)).
Qed.

(** Two texts cut at their first underscore agree part by part. *)
Lemma split_at_underscore (a b s t : string) :
  ¬ occurs "_" a → ¬ occurs "_" b →
  a +:+ String "_" s = b +:+ String "_" t → a = b ∧ s = t.
Proof.
  revert b. induction a as [|c a IH]; intros [|d b] Ha Hb Heq; simpl in *.
  - by simplify_eq.
  - simplify_eq. tauto.
  - simplify_eq. tauto.
  - injection Heq as -> Heq.
    destruct (IH b) as [-> ->]; [tauto..|done|done].
Qed.

End Strings.


(** ** The calendar: timestamps follow the clock *)

Section Calendar.
Import Js.

Lemma civil_stages day :
  civil_from_days day =
    let era := (day + 719468) / 146097 in
    let doe := (day + 719468) - era * 146097 in
    let mp := mp_of (doy_of doe) in
    (yoe_of doe + era * 400 + (if m_of mp <=? 2 then 1 else 0), m_of mp,
     d_of (doy_of doe)).
Proof. reflexivity. Qed.

Lemma doe_range z : 0 ≤ z - z / 146097 * 146097 < 146097.
Proof. Z.div_mod_to_equations; lia. Qed.

Lemma yoe_doy_range doe :
  0 ≤ doe < 146097 → 0 ≤ yoe_of doe ≤ 399 ∧ 0 ≤ doy_of doe ≤ 365.
Proof. intros H. unfold doy_of, yoe_of. Z.div_mod_to_equations; lia. Qed.

Lemma yoe_doy_mono a b :
  0 ≤ a → a < b → b < 146097 →
  yoe_of a < yoe_of b ∨ (yoe_of a = yoe_of b ∧ doy_of a < doy_of b).
Proof. intros H1 H2 H3. unfold doy_of, yoe_of. Z.div_mod_to_equations; lia. Qed.

Lemma mp_d_range doy :
  0 ≤ doy ≤ 365 → 0 ≤ mp_of doy ≤ 11 ∧ 1 ≤ d_of doy ≤ 31.
Proof. intros H. unfold d_of, mp_of. Z.div_mod_to_equations; lia. Qed.

Lemma mp_d_mono a b :
  0 ≤ a → a < b → b ≤ 365 →
  mp_of a < mp_of b ∨ (mp_of a = mp_of b ∧ d_of a < d_of b).
Proof. intros H1 H2 H3. unfold d_of, mp_of. Z.div_mod_to_equations; lia. Qed.

(** Months run from 1 to 12 and days from 1 to 31. *)
Lemma civil_range day :
  1 ≤ (civil_from_days day).1.2 ≤ 12 ∧ 1 ≤ (civil_from_days day).2 ≤ 31.
Proof.
  rewrite civil_stages. cbv zeta. cbn [fst snd].
  pose proof (doe_range (day + 719468)) as Hdoe.
  destruct (yoe_doy_range _ Hdoe) as [_ Hdoy].
  destruct (mp_d_range _ Hdoy) as [Hmp Hd].
  unfold m_of. case_match; lia.
Qed.

(** A later day has a later date. *)
Lemma civil_mono a b : a < b → date_lt (civil_from_days a) (civil_from_days b).
Proof.
  intros Hab. unfold date_lt. rewrite !civil_stages. cbv zeta. cbn [fst snd].
  pose proof (doe_range (a + 719468)) as Ha.
  pose proof (doe_range (b + 719468)) as Hb.
  set (doe_a := a + 719468 - (a + 719468) / 146097 * 146097) in *.
  set (doe_b := b + 719468 - (b + 719468) / 146097 * 146097) in *.
  assert ((a + 719468) / 146097 < (b + 719468) / 146097
          ∨ ((a + 719468) / 146097 = (b + 719468) / 146097 ∧ doe_a < doe_b)) as Hera.
  { subst doe_a doe_b. Z.div_mod_to_equations; lia. }
  set (era_a := (a + 719468) / 146097) in *.
  set (era_b := (b + 719468) / 146097) in *.
  destruct (yoe_doy_range _ Ha) as [Hyoe_a Hdoy_a].
  destruct (yoe_doy_range _ Hb) as [Hyoe_b Hdoy_b].
  destruct (mp_d_range _ Hdoy_a) as [Hmp_a Hd_a].
  destruct (mp_d_range _ Hdoy_b) as [Hmp_b Hd_b].
  assert (era_a = era_b →
          yoe_of doe_a < yoe_of doe_b
          ∨ (yoe_of doe_a = yoe_of doe_b
             ∧ (mp_of (doy_of doe_a) < mp_of (doy_of doe_b)
                ∨ (mp_of (doy_of doe_a) = mp_of (doy_of doe_b)
                   ∧ d_of (doy_of doe_a) < d_of (doy_of doe_b))))) as Hsame.
  { intros Heq. destruct Hera as [?|[_ Hlt]]; [lia|].
    destruct (yoe_doy_mono doe_a doe_b) as [?|[Hy Hdoy]]; [lia..|by left|].
    right. split; [exact Hy|]. apply mp_d_mono; lia. }
  unfold m_of. repeat case_match; lia.
Qed.

(** The years of the time values with a four-digit year. *)
Lemma civil_year_range day :
  -719528 ≤ day ≤ 2932896 → 0 ≤ (civil_from_days day).1.1 ≤ 9999.
Proof.
  intros [Hlo Hhi]. split.
  - destruct (decide (day = -719528)) as [->|Hne]; [done|].
    pose proof (civil_mono (-719528) day ltac:(lia)) as Hlt.
    unfold date_lt in Hlt. change (civil_from_days (-719528)) with (0, 1, 1) in Hlt.
    cbn [fst snd] in Hlt. lia.
  - destruct (decide (day = 2932896)) as [->|Hne]; [done|].
    pose proof (civil_mono day 2932896 ltac:(lia)) as Hlt.
    unfold date_lt in Hlt. change (civil_from_days 2932896) with (9999, 12, 31) in Hlt.
    cbn [fst snd] in Hlt. lia.
Qed.

End Calendar.

Section Digits.
Import Js.

Lemma digit_compare x y :
  0 ≤ x ≤ 9 → 0 ≤ y ≤ 9 →
  Ascii.compare (pretty_N_char (Z.to_N x)) (pretty_N_char (Z.to_N y)) = (x ?= y).
Proof.
  intros Hx Hy.
  assert (x = 0 ∨ x = 1 ∨ x = 2 ∨ x = 3 ∨ x = 4 ∨ x = 5 ∨ x = 6 ∨ x = 7 ∨ x = 8 ∨ x = 9)
    as Hxs by lia.
  assert (y = 0 ∨ y = 1 ∨ y = 2 ∨ y = 3 ∨ y = 4 ∨ y = 5 ∨ y = 6 ∨ y = 7 ∨ y = 8 ∨ y = 9)
    as Hys by lia.
  destruct Hxs as [->|[->|[->|[->|[->|[->|[->|[->|[->| ->]]]]]]]]];
    destruct Hys as [->|[->|[->|[->|[->|[->|[->|[->|[->| ->]]]]]]]]]; reflexivity.
Qed.

Lemma ascii_compare_refl c : Ascii.compare c c = Eq.
Proof. unfold Ascii.compare. apply N.compare_refl. Qed.

Lemma compare_String c s t :
  String.compare (String c s) (String c t) = String.compare s t.
Proof. cbn [String.compare]. by rewrite ascii_compare_refl. Qed.

Lemma append_String c s t : String c s +:+ t = String c (s +:+ t).
Proof. reflexivity. Qed.

(** A field of equal digits is skipped; a field of smaller digits
    decides. *)
Lemma digits_compare_eq w n s t :
  String.compare (digits w n +:+ s) (digits w n +:+ t) = String.compare s t.
Proof.
  revert n. induction w as [|w IH]; intros n; [done|].
  cbn [digits]. by rewrite !append_String, compare_String, IH.
Qed.

Lemma digits_compare_lt w a b s t :
  0 ≤ a → a < b → b < 10 ^ Z.of_nat w →
  String.compare (digits w a +:+ s) (digits w b +:+ t) = Lt.
Proof.
  revert a b. induction w as [|w IH]; intros a b Ha Hab Hb.
  { change (10 ^ Z.of_nat 0) with 1 in Hb. lia. }
  cbn [digits]. rewrite !append_String. cbn [String.compare].
  assert (0 < 10 ^ Z.of_nat w) as Hp by (apply Z.pow_pos_nonneg; lia).
  assert (10 ^ Z.of_nat (S w) = 10 * 10 ^ Z.of_nat w) as Hpow.
  { rewrite Nat2Z.inj_succ, Z.pow_succ_r by lia. done. }
  rewrite Hpow in Hb. set (p := 10 ^ Z.of_nat w) in *.
  assert (0 ≤ a / p ≤ 9 ∧ 0 ≤ b / p ≤ 9 ∧ a / p ≤ b / p) as (Hqa & Hqb & Hq).
  { split; [|split].
    - split; [apply Z.div_pos; lia|]. apply Z.lt_succ_r, Z.div_lt_upper_bound; lia.
    - split; [apply Z.div_pos; lia|]. apply Z.lt_succ_r, Z.div_lt_upper_bound; lia.
    - apply Z.div_le_mono; lia. }
  rewrite digit_compare by done.
  destruct (Z.compare_spec (a / p) (b / p)) as [Heq|Hlt|Hgt]; [|done|lia].
  apply IH.
  - apply Z.mod_pos_bound; lia.
  - pose proof (Z.div_mod a p ltac:(lia)). pose proof (Z.div_mod b p ltac:(lia)). nia.
  - apply Z.mod_pos_bound; lia.
Qed.

(** [padStart] on the numbers that fit its width. *)
Lemma padStart_checked w bound :
  forallb (λ n, String.eqb (padStart w n) (digits w n)) (seqZ 0 bound) = true →
  ∀ n, 0 ≤ n < bound → padStart w n = digits w n.
Proof.
  intros Hall n Hn. rewrite forallb_forall in Hall.
  apply String.eqb_eq, Hall, list_elem_of_In, elem_of_seqZ. lia.
Qed.

Lemma padStart_2 n : 0 ≤ n < 100 → padStart 2 n = digits 2 n.
Proof. apply padStart_checked. by vm_compute. Qed.

Lemma padStart_3 n : 0 ≤ n < 1000 → padStart 3 n = digits 3 n.
Proof. apply padStart_checked. by vm_compute. Qed.

Lemma padStart_4 n : 0 ≤ n < 10000 → padStart 4 n = digits 4 n.
Proof. apply padStart_checked. by vm_compute. Qed.

End Digits.

Section TimestampOrder.
Import Js.

Lemma day_range t :
  four_digit_year t → -719528 ≤ t / msPerDay ≤ 2932896.
Proof. unfold four_digit_year, msPerDay. intros H. Z.div_mod_to_equations; lia. Qed.

Lemma time_range ms :
  0 ≤ ms < 86400000 →
  0 ≤ ms / 3600000 < 100 ∧ 0 ≤ ms / 60000 mod 60 < 100
  ∧ 0 ≤ ms / 1000 mod 60 < 100 ∧ 0 ≤ ms mod 1000 < 1000.
Proof. intros H. Z.div_mod_to_equations; lia. Qed.

Lemma toISOString_fields t :
  four_digit_year t →
  toISOString t =
    let date := civil_from_days (t / msPerDay) in
    let ms := t mod msPerDay in
    iso_fields date.1.1 date.1.2 date.2
      (ms / 3600000) (ms / 60000 mod 60) (ms / 1000 mod 60) (ms mod 1000).
Proof.
  intros Ht. unfold toISOString. cbv zeta.
  pose proof (civil_year_range _ (day_range t Ht)) as Hy.
  pose proof (civil_range (t / msPerDay)) as [Hm Hd].
  destruct (civil_from_days (t / msPerDay)) as [[y m] d]. cbn [fst snd] in *.
  destruct (time_range (t mod msPerDay)) as (Hh & Hmi & Hs & Hms).
  { unfold msPerDay. apply Z.mod_pos_bound. lia. }
  unfold year_string.
  replace ((0 <=? y) && (y <=? 9999)) with true by (symmetry; apply andb_true_iff; lia).
  rewrite padStart_4, !padStart_2, padStart_3 by lia. reflexivity.
Qed.

Lemma field_step w a b c s t :
  0 ≤ a → b < 10 ^ Z.of_nat w →
  a < b ∨ (a = b ∧ (String.compare s t = Lt ∨ String.compare s t = Eq)) →
  String.compare (digits w a +:+ String c s) (digits w b +:+ String c t) = Lt
  ∨ String.compare (digits w a +:+ String c s) (digits w b +:+ String c t) = Eq.
Proof.
  intros Ha Hb [Hlt|[-> Hrest]].
  - left. by apply digits_compare_lt.
  - by rewrite digits_compare_eq, compare_String.
Qed.

(** The fields of the time of day follow the milliseconds of the day. *)
Lemma time_fields_mono a b :
  0 ≤ a → a ≤ b → b < 86400000 →
  a / 3600000 < b / 3600000
  ∨ (a / 3600000 = b / 3600000
     ∧ (a / 60000 mod 60 < b / 60000 mod 60
        ∨ (a / 60000 mod 60 = b / 60000 mod 60
           ∧ (a / 1000 mod 60 < b / 1000 mod 60
              ∨ (a / 1000 mod 60 = b / 1000 mod 60
                 ∧ (a mod 1000 < b mod 1000 ∨ a mod 1000 = b mod 1000)))))).
Proof. intros H1 H2 H3. Z.div_mod_to_equations; lia. Qed.

(** Within the years 0000 to 9999 the text of a timestamp grows with the
    clock reading it renders. *)
Lemma toISOString_mono t1 t2 :
  four_digit_year t1 → four_digit_year t2 → t1 ≤ t2 →
  timestamp_le (toISOString t1) (toISOString t2).
Proof.
  intros H1 H2 Hle. rewrite !toISOString_fields by done. cbv zeta.
  pose proof (civil_year_range _ (day_range t1 H1)) as Hy1.
  pose proof (civil_year_range _ (day_range t2 H2)) as Hy2.
  pose proof (civil_range (t1 / msPerDay)) as [Hm1 Hd1].
  pose proof (civil_range (t2 / msPerDay)) as [Hm2 Hd2].
  assert (0 ≤ t1 mod msPerDay < 86400000) as Hms1
    by (unfold msPerDay; apply Z.mod_pos_bound; lia).
  assert (0 ≤ t2 mod msPerDay < 86400000) as Hms2
    by (unfold msPerDay; apply Z.mod_pos_bound; lia).
  destruct (time_range _ Hms1) as (Hh1 & Hmi1 & Hs1 & Hmil1).
  destruct (time_range _ Hms2) as (Hh2 & Hmi2 & Hs2 & Hmil2).
  assert (t1 / msPerDay < t2 / msPerDay
          ∨ (t1 / msPerDay = t2 / msPerDay ∧ t1 mod msPerDay ≤ t2 mod msPerDay))
    as [Hday|[Hday Hms]].
  { unfold msPerDay. Z.div_mod_to_equations; lia. }
  all: unfold timestamp_le, String.leb, iso_fields.
  all: match goal with
       | |- match ?c with _ => _ end = true =>
           cut (c = Lt ∨ c = Eq); [by intros [-> | ->]|]
       end.
  - pose proof (civil_mono _ _ Hday) as Hdate. unfold date_lt in Hdate.
    destruct (civil_from_days (t1 / msPerDay)) as [[y1 m1] d1].
    destruct (civil_from_days (t2 / msPerDay)) as [[y2 m2] d2].
    cbn [fst snd] in *.
    apply (field_step 4); [lia|simpl; lia|].
    destruct Hdate as [?|[-> Hdate]]; [by left|right; split; [done|]].
    apply (field_step 2); [lia|simpl; lia|].
    destruct Hdate as [?|[-> Hdate]]; [by left|right; split; [done|]].
    left. apply digits_compare_lt; [lia|done|simpl; lia].
  - rewrite Hday.
    destruct (civil_from_days (t2 / msPerDay)) as [[y m] d]. cbn [fst snd] in *.
    pose proof (time_fields_mono _ _ (proj1 Hms1) Hms (proj2 Hms2)) as Htime.
    rewrite !digits_compare_eq, !compare_String, !digits_compare_eq, !compare_String,
      !digits_compare_eq, !compare_String.
    apply (field_step 2); [lia|simpl; lia|].
    destruct Htime as [?|[-> Htime]]; [by left|right; split; [done|]].
    apply (field_step 2); [lia|simpl; lia|].
    destruct Htime as [?|[-> Htime]]; [by left|right; split; [done|]].
    apply (field_step 2); [lia|simpl; lia|].
    destruct Htime as [?|[-> Htime]]; [by left|right; split; [done|]].
    apply (field_step 3); [lia|simpl; lia|].
    destruct Htime as [?|Htime]; [by left|right; split; [done|]].
    by right.
Qed.

(** Past the year 9999 the text no longer follows the clock: the year is
    then written with a sign and six digits. *)
Lemma toISOString_year_10000 :
  toISOString 253402300799999 = "9999-12-31T23:59:59.999Z"
  ∧ toISOString 253402300800000 = "+010000-01-01T00:00:00.000Z"
  ∧ ¬ timestamp_le (toISOString 253402300799999) (toISOString 253402300800000).
Proof. by vm_compute. Qed.

End TimestampOrder.

(** ** The handlers, evaluated *)

Section Handlers.
Import Js Server.

Lemma get_orders_eval orders : get_orders orders = (inr (listing orders), orders).
Proof. reflexivity. Qed.

Lemma delete_orders_eval orders :
  delete_orders orders = (inr (cleared (length orders)), []).
Proof. reflexivity. Qed.

(** Only an object can pass the check of the required fields. *)
Lemma has_required_object body :
  has_required body = true → ∃ o, body = VObj o.
Proof. destruct body; try discriminate. eauto. Qed.

(** Reading a property of the stored record: [timestamp] is the server's,
    every other property is the body's when the body has it, and [id] is
    the generated one only when the body has none. *)
Lemma stored_order_get env body k :
  get (stored_order env body) k =
    inr (if decide (k = "timestamp") then VStr (toISOString (new_Date env))
         else match own_props body !! k with
              | Some v => v
              | None => if decide (k = "id") then VStr (generateId env)
                        else VUndefined
              end).
Proof.
  unfold stored_order, object. cbn [foldl define get]. f_equal.
  destruct (decide (k = "timestamp")) as [->|Hts].
  { by rewrite lookup_insert_eq. }
  rewrite lookup_insert_ne by done.
  destruct (own_props body !! k) as [v|] eqn:Hk.
  { by erewrite lookup_union_Some_l. }
  rewrite lookup_union_r by done.
  destruct (decide (k = "id")) as [->|Hid].
  - by rewrite lookup_insert_eq.
  - by rewrite lookup_insert_ne, lookup_empty.
Qed.

Lemma stored_order_get_id env body :
  get (stored_order env body) "id" = inr (stored_id env body).
Proof.
  rewrite stored_order_get. unfold stored_id.
  by destruct (own_props body !! "id").
Qed.

(** The create handler, evaluated: a body that passes the check is
    appended, and answered 201 unless writing its [id] to the log throws,
    which the handler catches and answers with 500. *)
Lemma post_order_eval env body orders :
  post_order env body orders =
    if has_required body
    then (accepted_answer env body, orders ++ [stored_order env body])
    else if nullish body then (inr create_failed, orders)
    else (inr missing_required, orders).
Proof.
  unfold post_order, try_catch, or_else, not_, prop, lift, orders_push.
  unfold mbind, M_bind, mret, M_ret.
  destruct body as [| |b|n|s|l|o]; try reflexivity.
  fold (stored_order env (VObj o)). rewrite stored_order_get_id.
  unfold has_required, get, nullish, ToString.
  destruct (ToBoolean (default VUndefined (o !! "symbol"))); [|reflexivity].
  destruct (ToBoolean (default VUndefined (o !! "orderType"))); [|reflexivity].
  destruct (ToBoolean (default VUndefined (o !! "quantity"))); [|reflexivity].
  destruct (ToBoolean (default VUndefined (o !! "side"))); [|reflexivity].
  unfold accepted_answer. by destruct (ToString_fails (stored_id env (VObj o))).
Qed.


(** A generated id, and an id that is a string, a number, a boolean or
    [null], can always be written to the log. *)
Lemma stored_id_generated env body :
  own_props body !! "id" = None → ToString_fails (stored_id env body) = false.
Proof. intros Hnone. unfold stored_id. by rewrite Hnone. Qed.

Lemma accepted_answer_generated env body :
  own_props body !! "id" = None →
  accepted_answer env body = inr (created (stored_order env body)).
Proof. intros Hnone. unfold accepted_answer. by rewrite stored_id_generated. Qed.

Lemma stored_order_timestamp env body :
  get (stored_order env body) "timestamp" = inr (VStr (toISOString (new_Date env))).
Proof. by rewrite stored_order_get. Qed.

Lemma stored_order_id env body :
  own_props body !! "id" = None →
  get (stored_order env body) "id" = inr (VStr (generateId env)).
Proof. intros Hnone. by rewrite stored_order_get, Hnone. Qed.

Lemma stored_order_client_id env body v :
  own_props body !! "id" = Some v → get (stored_order env body) "id" = inr v.
Proof. intros Hsome. by rewrite stored_order_get, Hsome. Qed.

Lemma stored_order_copies env o k :
  k ≠ "id" → k ≠ "timestamp" →
  get (stored_order env (VObj o)) k = get (VObj o) k.
Proof.
  intros Hid Hts. rewrite stored_order_get.
  rewrite decide_False by done. simpl.
  destruct (o !! k); [done|]. by rewrite decide_False.
Qed.

Lemma has_required_stored env body :
  has_required body = true → has_required (stored_order env body) = true.
Proof.
  intros Hreq. destruct (has_required_object _ Hreq) as [o ->].
  pose proof (stored_order_copies env o) as Hcopy.
  unfold stored_order, object in *. cbn [foldl define] in *.
  unfold has_required, get in *.
  assert (∀ k, k ≠ "id" → k ≠ "timestamp" →
    default VUndefined ((<["timestamp":=VStr (toISOString (new_Date env))]>
      (own_props (VObj o) ∪ <["id":=VStr (generateId env)]> ∅)) !! k) =
    default VUndefined (o !! k)) as Hk.
  { intros k ??. specialize (Hcopy k). naive_solver. }
  by rewrite !Hk.
Qed.

(** The generated id determines the clock reading and the nine characters
    kept of the random draw. *)
Lemma generateId_inj e1 e2 :
  generateId e1 = generateId e2 ↔
  Date_now e1 = Date_now e2 ∧
  substr 2 9 (Math_random_base36 e1) = substr 2 9 (Math_random_base36 e2).
Proof.
  unfold generateId. split.
  - intros Heq. apply (inj (String.app "order_")) in Heq.
    apply split_at_underscore in Heq; [|apply pretty_Z_underscore..].
    destruct Heq as [Hnow Hrnd]. split; [|done].
    by apply (inj pretty).
  - by intros [-> ->].
Qed.

(** Serving a run of create requests that all pass the check. *)
Lemma serve_creates reqs orders :
  Forall (λ r, has_required r.2 = true) reqs →
  serve (creates reqs) orders =
    ((λ r, accepted_answer r.1 r.2) <$> reqs,
     orders ++ ((λ r, stored_order r.1 r.2) <$> reqs)).
Proof.
  intros Hreqs. revert orders.
  induction Hreqs as [|[env body] reqs Hreq _ IH]; intros orders.
  - simpl. by rewrite app_nil_r.
  - simpl in *. rewrite post_order_eval, Hreq.
    unfold creates in IH. rewrite IH. by rewrite <-app_assoc.
Qed.

Lemma serve_app rs1 rs2 orders :
  serve (rs1 ++ rs2) orders =
    let '(answers1, orders1) := serve rs1 orders in
    let '(answers2, orders2) := serve rs2 orders1 in
    (answers1 ++ answers2, orders2).
Proof.
  revert orders. induction rs1 as [|r rs1 IH]; intros orders; simpl.
  - by destruct (serve rs2 orders).
  - destruct (handle r orders) as [answer orders']. rewrite IH.
    destruct (serve rs1 orders') as [answers1 orders1].
    by destruct (serve rs2 orders1).
Qed.

(** The answer to the i-th request is the handler's answer on the
    registry as the earlier requests left it. *)
Lemma serve_answer rs orders i r :
  rs !! i = Some r →
  ∃ before, (serve rs orders).1 !! i = Some (handle r before).1.
Proof.
  revert orders i. induction rs as [|r' rs IH]; intros orders [|i] Hi; try done.
  - injection Hi as ->. exists orders. simpl.
    destruct (handle r orders) as [answer orders'].
    by destruct (serve rs orders').
  - simpl in *. destruct (handle r' orders) as [answer orders'].
    destruct (IH orders' i Hi) as [before Hbefore]. exists before.
    by destruct (serve rs orders').
Qed.

(** Serving requests keeps the registry among the reachable ones. *)
Lemma serve_reachable rs orders :
  reachable orders → reachable (serve rs orders).2.
Proof.
  revert orders. induction rs as [|r rs IH]; intros orders Horders; [done|].
  simpl. pose proof (reachable_serve r orders Horders) as Hstep.
  destruct (handle r orders) as [answer orders'].
  specialize (IH orders' Hstep). by destruct (serve rs orders').
Qed.

End Handlers.

(** ** The registry: what the server stores and answers *)

Section Registry.
Import Js Server Scenario.

(** The scenarios of the create endpoint: a Market order, a Stop Limit
    order with both prices, a body without [side]. *)
Example market_order_created :
  ∃ order,
    post_order env1 market_order [] = (inr (created order), [order]) ∧
    get order "id" = inr (VStr "order_1705314600000_4fzyo82mv") ∧
    get order "timestamp" = inr (VStr "2024-01-15T10:30:00.000Z") ∧
    get order "quantity" = inr (VNum 10) ∧
    get order "price" = inr VUndefined.
Proof.
  exists (stored_order env1 market_order).
  split; [by rewrite post_order_eval|]. repeat split; by vm_compute.
Qed.

Example stop_limit_order_created :
  ∃ order,
    post_order env3 stop_limit_order [] = (inr (created order), [order]) ∧
    get order "id" = inr (VStr "order_1705314600250_i") ∧
    get order "price" = inr (VNum 2450) ∧
    get order "stopPrice" = inr (VNum 2400).
Proof.
  exists (stored_order env3 stop_limit_order).
  split; [by rewrite post_order_eval|]. repeat split; by vm_compute.
Qed.

Example missing_side_rejected :
  post_order env1 missing_side [] = (inr missing_required, []).
Proof. by rewrite post_order_eval. Qed.

(** C1: a create request whose body brings its own [id] is stored under
    that [id], not under the generated one; the [timestamp] it brings is
    replaced by the server's. *)
Lemma C1_client_id_is_stored :
  ∃ order,
    post_order env1 with_client_id [] = (inr (created order), [order]) ∧
    get with_client_id "id" = inr (VStr "order_1") ∧
    generateId env1 = "order_1705314600000_4fzyo82mv" ∧
    get order "id" = inr (VStr "order_1") ∧
    get order "timestamp" = inr (VStr "2024-01-15T10:30:00.000Z").
Proof.
  exists (stored_order env1 with_client_id). split.
  - by rewrite post_order_eval.
  - repeat split; by vm_compute.
Qed.

Lemma limit_without_price_reachable :
  reachable [stored_order env1 limit_without_price].
Proof.
  pose proof (reachable_serve (POST_order env1 limit_without_price) []
                reachable_start) as H.
  simpl in H. by rewrite post_order_eval in H.
Qed.

(** C2, as stated, fails: a Limit order without a price is accepted and
    sits in the registry of a reachable state. *)
Lemma C2_limit_without_price_stored :
  reachable [stored_order env1 limit_without_price] ∧
  conditional_rule (stored_order env1 limit_without_price) = false.
Proof. split; [apply limit_without_price_reachable|by vm_compute]. Qed.

(** C2, amended: in every reachable state each stored order has a truthy
    [symbol], [orderType], [quantity] and [side]. *)
Theorem C2_registry_has_required orders :
  reachable orders → Forall (λ order, has_required order = true) orders.
Proof.
  induction 1 as [|r orders _ IH]; [constructor|].
  destruct r as [env body| |]; simpl.
  - rewrite post_order_eval.
    destruct (has_required body) eqn:Hreq.
    + apply Forall_app. split; [done|].
      constructor; [|constructor]. by apply has_required_stored.
    + by destruct (nullish body).
  - done.
  - constructor.
Qed.

Lemma C2_registry_has_required_witness :
  reachable [stored_order env1 limit_without_price] ∧
  Forall (λ order, has_required order = true) [stored_order env1 limit_without_price].
Proof.
  split; [apply limit_without_price_reachable|].
  exact (C2_registry_has_required _ limit_without_price_reachable).
Defined.

Lemma lacks_required_field_rejected body :
  lacks_required_field body → has_required body = false.
Proof.
  intros (k & Hk & Hnone). destruct body as [| | | | | |o]; try done.
  simpl in *. unfold required_fields in Hk.
  repeat (apply elem_of_cons in Hk as [->|Hk]);
    [rewrite Hnone; simpl; by rewrite ?andb_false_r..|].
  by apply elem_of_nil in Hk.
Qed.

(** C3, as stated, fails: a body that holds all four required members,
    with [quantity] 0, is answered 400 "Missing required fields". *)
Lemma C3_zero_quantity_rejected :
  ¬ lacks_required_field zero_quantity ∧
  post_order env1 zero_quantity [] = (inr missing_required, []).
Proof.
  split; [|by rewrite post_order_eval].
  intros (k & Hk & Hnone). unfold required_fields in Hk.
  repeat (apply elem_of_cons in Hk as [->|Hk]); [by vm_compute in Hnone..|].
  by apply elem_of_nil in Hk.
Qed.

(** C3, amended: for every body the JSON middleware hands over, the answer
    is 400 "Missing required fields" exactly when one of [symbol],
    [orderType], [quantity], [side] is missing or falsy; a body that lacks
    one of them is such a body; a rejection leaves the registry as it was;
    every other body is appended to the registry as its stored record, and
    is answered 201 with that record when the record's [id] can be written
    to the log (always so when the body brings no [id], or one that is a
    string, a number, a boolean or [null]), and 500 when it cannot. *)
Theorem C3_missing_or_falsy env body orders :
  nullish body = false →
  ((post_order env body orders).1 = inr missing_required ↔ has_required body = false)
  ∧ (lacks_required_field body → has_required body = false)
  ∧ (has_required body = false → (post_order env body orders).2 = orders)
  ∧ (has_required body = true → ToString_fails (stored_id env body) = false →
       post_order env body orders =
         (inr (created (stored_order env body)), orders ++ [stored_order env body]))
  ∧ (has_required body = true → ToString_fails (stored_id env body) = true →
       post_order env body orders =
         (inr create_failed, orders ++ [stored_order env body])).
Proof.
  intros Hbody. rewrite post_order_eval, Hbody.
  split; [|split; [apply lacks_required_field_rejected|]].
  - destruct (has_required body); simpl; [|done].
    split; [|done]. unfold accepted_answer.
    by destruct (ToString_fails (stored_id env body)); intros [=].
  - destruct (has_required body); repeat split; try done.
    all: intros _ Hlog; unfold accepted_answer; by rewrite Hlog.
Qed.

Lemma C3_missing_or_falsy_witness :
  nullish missing_side = false ∧
  lacks_required_field missing_side ∧
  post_order env1 missing_side [] = (inr missing_required, []) ∧
  has_required market_order = true ∧
  post_order env1 market_order [] =
    (inr (created (stored_order env1 market_order)), [stored_order env1 market_order]) ∧
  has_required unloggable_id = true ∧
  post_order env1 unloggable_id [] =
    (inr create_failed, [stored_order env1 unloggable_id]).
Proof.
  assert (lacks_required_field missing_side) as Hside.
  { exists "side". split; [|by vm_compute]. unfold required_fields. set_solver. }
  destruct (C3_missing_or_falsy env1 missing_side [] eq_refl) as (H400 & Hlacks & Hsame & _).
  destruct (C3_missing_or_falsy env1 market_order [] eq_refl) as (_ & _ & _ & H201 & _).
  destruct (C3_missing_or_falsy env1 unloggable_id [] eq_refl) as (_ & _ & _ & _ & H500).
  split; [reflexivity|]. split; [exact Hside|]. split; [|split; [|split; [|split]]].
  - apply injective_projections; simpl.
    + by apply H400, Hlacks.
    + by apply Hsame, Hlacks.
  - by vm_compute.
  - exact (H201 eq_refl eq_refl).
  - by vm_compute.
  - exact (H500 eq_refl eq_refl).
Defined.

(** C4, as stated, fails in both halves: two accepted requests served in
    the same millisecond, with random draws that agree on the nine
    characters kept, are given the same [id]; and a request accepted after
    the system clock was set back is returned an earlier [timestamp] than
    the request before it. *)
Lemma C4_same_id_and_earlier_timestamp :
  Math_random_base36 env1 ≠ Math_random_base36 env2 ∧
  ∃ order1 order2 order4,
    (serve (creates [(env1, market_order); (env2, stop_limit_order); (env4, market_order)])
           []).1 =
      [inr (created order1); inr (created order2); inr (created order4)] ∧
    get order1 "id" = inr (VStr "order_1705314600000_4fzyo82mv") ∧
    get order2 "id" = inr (VStr "order_1705314600000_4fzyo82mv") ∧
    get order2 "timestamp" = inr (VStr "2024-01-15T10:30:00.000Z") ∧
    get order4 "timestamp" = inr (VStr "2024-01-15T10:29:59.001Z") ∧
    ¬ timestamp_le "2024-01-15T10:30:00.000Z" "2024-01-15T10:29:59.001Z".
Proof.
  split; [done|].
  exists (stored_order env1 market_order), (stored_order env2 stop_limit_order),
    (stored_order env4 market_order).
  split; [|repeat split; by vm_compute].
  rewrite serve_creates; [done|]. by repeat constructor.
Qed.

(** C4, amended: in any sequence of requests, two accepted create
    requests whose bodies carry no [id] of their own are each answered with
    their stored record, whose [id] is the generated one and whose
    [timestamp] renders the clock reading of its acceptance; the two ids
    are equal exactly when the requests agree on the millisecond of
    [Date.now()] and on the nine characters kept of the random draw; and
    the two timestamps are in order, as texts, whenever the two clock
    readings are and both fall in the years 0000 to 9999. *)
Theorem C4_ids_and_timestamps rs orders i j env_i body_i env_j body_j :
  rs !! i = Some (POST_order env_i body_i) →
  rs !! j = Some (POST_order env_j body_j) →
  has_required body_i = true → own_props body_i !! "id" = None →
  has_required body_j = true → own_props body_j !! "id" = None →
  ∃ order_i order_j ts_i ts_j,
    (serve rs orders).1 !! i = Some (inr (created order_i))
    ∧ (serve rs orders).1 !! j = Some (inr (created order_j))
    ∧ get order_i "id" = inr (VStr (generateId env_i))
    ∧ get order_i "timestamp" = inr (VStr ts_i)
    ∧ get order_j "timestamp" = inr (VStr ts_j)
    ∧ ts_i = toISOString (new_Date env_i)
    ∧ ts_j = toISOString (new_Date env_j)
    ∧ (get order_i "id" = get order_j "id"
       ↔ Date_now env_i = Date_now env_j
         ∧ substr 2 9 (Math_random_base36 env_i)
           = substr 2 9 (Math_random_base36 env_j))
    ∧ (four_digit_year (new_Date env_i) → four_digit_year (new_Date env_j) →
       new_Date env_i ≤ new_Date env_j → timestamp_le ts_i ts_j).
Proof.
  intros Hi Hj Hreq_i Hid_i Hreq_j Hid_j.
  exists (stored_order env_i body_i), (stored_order env_j body_j),
    (toISOString (new_Date env_i)), (toISOString (new_Date env_j)).
  destruct (serve_answer _ orders _ _ Hi) as [before_i ->].
  destruct (serve_answer _ orders _ _ Hj) as [before_j ->].
  cbn [handle]. rewrite !post_order_eval, Hreq_i, Hreq_j.
  rewrite !accepted_answer_generated by done.
  rewrite !stored_order_timestamp, !stored_order_id by done.
  do 7 (split; [done|]). split.
  - rewrite <-generateId_inj. split; [congruence|by intros ->].
  - apply toISOString_mono.
Qed.

Lemma C4_ids_and_timestamps_witness :
  ∃ order1 order3,
    (serve [POST_order env1 market_order; GET_orders; POST_order env3 stop_limit_order]
           []).1 !! 0%nat = Some (inr (created order1))
    ∧ (serve [POST_order env1 market_order; GET_orders; POST_order env3 stop_limit_order]
             []).1 !! 2%nat = Some (inr (created order3))
    ∧ get order1 "id" ≠ get order3 "id"
    ∧ get order1 "timestamp" = inr (VStr "2024-01-15T10:30:00.000Z")
    ∧ get order3 "timestamp" = inr (VStr "2024-01-15T10:30:00.251Z")
    ∧ timestamp_le "2024-01-15T10:30:00.000Z" "2024-01-15T10:30:00.251Z".
Proof.
  destruct (C4_ids_and_timestamps
              [POST_order env1 market_order; GET_orders; POST_order env3 stop_limit_order]
              [] 0 2 env1 market_order env3 stop_limit_order
              eq_refl eq_refl eq_refl eq_refl eq_refl eq_refl)
    as (order1 & order3 & ts1 & ts3 & H1 & H3 & _ & Ht1 & Ht3 & -> & -> & Hsame & Hord).
  exists order1, order3.
  split; [exact H1|]. split; [exact H3|].
  split; [|split; [exact Ht1|split; [exact Ht3|]]].
  - intros Heq. apply Hsame in Heq as [Hnow _]. discriminate Hnow.
  - apply Hord; unfold four_digit_year; simpl; lia.
Defined.

(** C5: from a fresh registry, N create requests that pass the server's
    check followed by a list request are answered one by one (with the
    created record, for every body whose stored [id] can be written to the
    log) and then with the listing of N orders and count N; the i-th listed
    order agrees with the i-th body on every property other than [id] and
    [timestamp]. *)
Theorem C5_round_trip reqs :
  Forall (λ r, has_required r.2 = true) reqs →
  ∃ answers orders,
    serve (creates reqs ++ [GET_orders]) [] =
      (answers
       ++ [inr {| status := 200;
                  json := object [field "success" (VBool true);
                                  field "orders" (VArr orders);
                                  field "count" (VNum (number_of_nat (length reqs)))] |}],
       orders)
    ∧ length answers = length reqs
    ∧ (∀ i env body, reqs !! i = Some (env, body) →
         ToString_fails (stored_id env body) = false →
         answers !! i = Some (inr (created (stored_order env body))))
    ∧ length orders = length reqs
    ∧ ∀ i env body, reqs !! i = Some (env, body) →
        ∃ order, orders !! i = Some order
          ∧ ∀ k, k ≠ "id" → k ≠ "timestamp" → get order k = get body k.
Proof.
  intros Hreqs.
  exists ((λ r, accepted_answer r.1 r.2) <$> reqs), ((λ r, stored_order r.1 r.2) <$> reqs).
  split; [|split; [|split; [|split]]].
  - rewrite serve_app, serve_creates by done. simpl.
    unfold listing. by rewrite length_fmap.
  - by rewrite length_fmap.
  - intros i env body Hi Hlog. rewrite list_lookup_fmap, Hi. simpl.
    unfold accepted_answer. by rewrite Hlog.
  - by rewrite length_fmap.
  - intros i env body Hi. exists (stored_order env body). split.
    + by rewrite list_lookup_fmap, Hi.
    + intros k Hid Hts.
      apply (Forall_lookup_1 _ _ _ _ Hreqs) in Hi. simpl in Hi.
      destruct (has_required_object _ Hi) as [o ->].
      by apply stored_order_copies.
Qed.

Lemma C5_round_trip_witness :
  Forall (λ r, has_required r.2 = true)
    [(env1, market_order); (env3, stop_limit_order)]
  ∧ ∃ orders,
      (serve (creates [(env1, market_order); (env3, stop_limit_order)] ++ [GET_orders]) []).2
        = orders
      ∧ length orders = 2%nat
      ∧ ∃ order, orders !! 1%nat = Some order
          ∧ get order "price" = get stop_limit_order "price"
          ∧ get order "side" = inr (VStr "Buy").
Proof.
  assert (Forall (λ r, has_required r.2 = true)
            [(env1, market_order); (env3, stop_limit_order)]) as Hreqs.
  { repeat constructor. }
  split; [exact Hreqs|].
  destruct (C5_round_trip _ Hreqs) as (answers & orders & Hserve & _ & _ & Hlen & Hfields).
  exists orders. split; [by rewrite Hserve|]. split; [exact Hlen|].
  destruct (Hfields 1%nat env3 stop_limit_order eq_refl) as (order & Hi & Hk).
  exists order. split; [exact Hi|]. split.
  - by apply Hk.
  - by rewrite Hk.
Defined.

(** C8: clearing answers 200 with "Cleared N orders", N being the number
    of orders held, and leaves the registry empty; a list request served
    right after it is answered with no orders and count 0. *)
Theorem C8_clear_then_list orders :
  delete_orders orders =
    (inr {| status := 200;
            json := object [field "success" (VBool true);
                            field "message"
                              (VStr ("Cleared " +:+ pretty (length orders) +:+ " orders"))] |},
     [])
  ∧ serve [DELETE_orders; GET_orders] orders =
      ([inr (cleared (length orders));
        inr {| status := 200;
               json := object [field "success" (VBool true);
                               field "orders" (VArr []);
                               field "count" (VNum 0)] |}],
       []).
Proof. split; reflexivity. Qed.

(** C9, as stated, fails: a Market order sent with a price is stored and
    returned with that price. *)
Lemma C9_market_price_kept :
  get market_with_price "orderType" = inr (VStr "Market") ∧
  ∃ order,
    post_order env1 market_with_price [] = (inr (created order), [order]) ∧
    get order "price" = inr (VNum 100).
Proof.
  split; [by vm_compute|].
  exists (stored_order env1 market_with_price). split.
  - by rewrite post_order_eval.
  - by vm_compute.
Qed.

(** C9, amended: whatever the order type, an accepted request is stored,
    and returned when its stored [id] can be written to the log, with
    exactly the [price] and [orderType] its body holds: no price when the
    body has none, the body's price when it has one. *)
Theorem C9_price_copied env body orders :
  has_required body = true →
  ∃ order,
    (post_order env body orders).2 = orders ++ [order] ∧
    (ToString_fails (stored_id env body) = false →
       (post_order env body orders).1 = inr (created order)) ∧
    get order "price" = get body "price" ∧
    get order "orderType" = get body "orderType".
Proof.
  intros Hreq. exists (stored_order env body).
  rewrite post_order_eval, Hreq. split; [done|]. split.
  - intros Hlog. unfold accepted_answer. by rewrite Hlog.
  - destruct (has_required_object _ Hreq) as [o ->].
    split; by apply stored_order_copies.
Qed.

Lemma C9_price_copied_witness :
  has_required market_order = true ∧
  ∃ order,
    post_order env1 market_order [] = (inr (created order), [order]) ∧
    get order "price" = inr VUndefined.
Proof.
  split; [reflexivity|].
  destruct (C9_price_copied env1 market_order [] eq_refl)
    as (order & Hstored & Hanswer & Hprice & _).
  exists order. split; [|by rewrite Hprice].
  apply injective_projections; [exact (Hanswer eq_refl)|exact Hstored].
Defined.

End Registry.

(** ** The store: what the two asynchronous actions do *)

Section Store.
Import Js OrderStore Scenario.

(** Case analysis along an action: how each awaited promise settled, the
    status, the property read and the list that was found. *)
Ltac run_cases :=
  repeat match goal with
  | |- context [match settle ?w ?p with _ => _ end] => destruct (settle w p)
  | |- context [if ok ?r then _ else _] => destruct (ok r)
  | |- context [match get ?d ?k with _ => _ end] => destruct (get d k)
  | |- context [match orders ?s with _ => _ end] => destruct (orders s)
  end.

(** Both actions raise the busy flag and then wait for their request. *)
Lemma submitOrder_start orderData s :
  ∃ k, advance (submitOrder orderData) s =
         (Suspended (fetch "/api/order" (Some (post_init orderData))) k,
          set_isLoading true s).
Proof. eexists. reflexivity. Qed.

Lemma fetchOrders_start s :
  ∃ k, advance fetchOrders s =
         (Suspended (fetch "/api/orders" None) k, set_isLoading true s).
Proof. eexists. reflexivity. Qed.

(** [submitOrder], run to completion in any world. *)
Lemma submitOrder_run w orderData s :
  let p := fetch "/api/order" (Some (post_init orderData)) in
  let s1 := meanwhile w p (set_isLoading true s) in
  run w (submitOrder orderData) s =
    match settle w p with
    | rejected _ => (inr false, set_isLoading false s1)
    | fulfilled response =>
        if ok response then
          let s2 := meanwhile w (Response_json response) s1 in
          match settle w (Response_json response) with
          | rejected _ => (inr false, set_isLoading false s2)
          | fulfilled data =>
              match get data "order", orders s2 with
              | inr order, VArr l =>
                  (inr true, {| orders := VArr (l ++ [order]); isLoading := false |})
              | _, _ => (inr false, set_isLoading false s2)
              end
          end
        else (inr false, set_isLoading false s1)
    end.
Proof.
  intros p s1. subst s1 p. cbn.
  destruct (settle w _) as [response|e]; [|reflexivity]. cbn.
  destruct (ok response); [|reflexivity]. cbn.
  destruct (settle w _) as [data|e]; [|reflexivity]. cbn.
  destruct (get data "order") as [e|order]; [reflexivity|]. cbn.
  destruct (orders _); reflexivity.
Qed.

(** [fetchOrders], run to completion in any world. *)
Lemma fetchOrders_run w s :
  let p := fetch "/api/orders" None in
  let s1 := meanwhile w p (set_isLoading true s) in
  run w fetchOrders s =
    match settle w p with
    | rejected _ => (inr (), set_isLoading false s1)
    | fulfilled response =>
        if ok response then
          let s2 := meanwhile w (Response_json response) s1 in
          match settle w (Response_json response) with
          | rejected _ => (inr (), set_isLoading false s2)
          | fulfilled data =>
              match get data "orders" with
              | inr data_orders =>
                  (inr (), {| orders := or_value data_orders (VArr []);
                              isLoading := false |})
              | inl _ => (inr (), set_isLoading false s2)
              end
          end
        else (inr (), set_isLoading false s1)
    end.
Proof.
  intros p s1. subst s1 p. cbn.
  destruct (settle w _) as [response|e]; [|reflexivity]. cbn.
  destruct (ok response); [|reflexivity]. cbn.
  destruct (settle w _) as [data|e]; [|reflexivity]. cbn.
  destruct (get data "orders") as [e|data_orders]; reflexivity.
Qed.

(** C6: [submitOrder] raises the busy flag before it suspends; however the
    request goes, the promise it returns is fulfilled (never rejected) and
    the busy flag is down at the end; when the response is ok and its JSON
    parses, [data.order] is pushed at the tail of the list and the result
    is [true]; when the status is not ok, when the request fails, or when
    reading the response fails, the result is [false] and the list is the
    one the store held at that moment. *)
Theorem C6_submitOrder w orderData s :
  let p := fetch "/api/order" (Some (post_init orderData)) in
  let s1 := meanwhile w p (set_isLoading true s) in
  let s2 response := meanwhile w (Response_json response) s1 in
  (∃ k, advance (submitOrder orderData) s = (Suspended p k, set_isLoading true s))
  ∧ (∃ b, (run w (submitOrder orderData) s).1 = inr b)
  ∧ isLoading (run w (submitOrder orderData) s).2 = false
  ∧ (∀ response data order l,
       settle w p = fulfilled response → ok response = true →
       settle w (Response_json response) = fulfilled data →
       get data "order" = inr order →
       orders (s2 response) = VArr l →
       run w (submitOrder orderData) s =
         (inr true, {| orders := VArr (l ++ [order]); isLoading := false |}))
  ∧ (∀ response,
       settle w p = fulfilled response → ok response = false →
       run w (submitOrder orderData) s = (inr false, set_isLoading false s1))
  ∧ (∀ e,
       settle w p = rejected e →
       run w (submitOrder orderData) s = (inr false, set_isLoading false s1))
  ∧ (∀ response e,
       settle w p = fulfilled response → ok response = true →
       settle w (Response_json response) = rejected e →
       run w (submitOrder orderData) s = (inr false, set_isLoading false (s2 response)))
  ∧ (∀ response data e,
       settle w p = fulfilled response → ok response = true →
       settle w (Response_json response) = fulfilled data →
       get data "order" = inl e →
       run w (submitOrder orderData) s = (inr false, set_isLoading false (s2 response))).
Proof.
  intros p s1 s2. pose proof (submitOrder_run w orderData s) as Hrun.
  cbv zeta in Hrun. fold p in Hrun. fold s1 in Hrun.
  split; [apply submitOrder_start|].
  split; [|split]; [..|repeat split].
  - rewrite Hrun. run_cases; by eexists.
  - rewrite Hrun. by run_cases.
  - intros response data order l Hp Hok Hjson Horder Hl.
    rewrite Hrun, Hp, Hok, Hjson, Horder. fold (s2 response). by rewrite Hl.
  - intros response Hp Hok. by rewrite Hrun, Hp, Hok.
  - intros e Hp. by rewrite Hrun, Hp.
  - intros response e Hp Hok Hjson. by rewrite Hrun, Hp, Hok, Hjson.
  - intros response data e Hp Hok Hjson Horder.
    by rewrite Hrun, Hp, Hok, Hjson, Horder.
Qed.

Lemma C6_submitOrder_witness :
  run (answering {| ok := true |} (fulfilled (Server.json (Server.created stop_limit_order))))
      (submitOrder stop_limit_order) showing_one
    = (inr true,
       {| orders := VArr [Server.stored_order env1 market_order; stop_limit_order];
          isLoading := false |})
  ∧ run (answering {| ok := false |} (fulfilled (Server.json Server.missing_required)))
        (submitOrder missing_side) showing_one
    = (inr false, showing_one)
  ∧ run offline (submitOrder market_order) showing_one = (inr false, showing_one)
  ∧ run (answering {| ok := true |} (rejected (SyntaxError "Unexpected token")))
        (submitOrder market_order) showing_one
    = (inr false, showing_one).
Proof.
  split; [|split; [|split]].
  - destruct (C6_submitOrder
               (answering {| ok := true |}
                  (fulfilled (Server.json (Server.created stop_limit_order))))
               stop_limit_order showing_one) as (_ & _ & _ & Hok & _).
    exact (Hok {| ok := true |} _ stop_limit_order _
             eq_refl eq_refl eq_refl eq_refl eq_refl).
  - destruct (C6_submitOrder
               (answering {| ok := false |} (fulfilled (Server.json Server.missing_required)))
               missing_side showing_one) as (_ & _ & _ & _ & Hstatus & _).
    exact (Hstatus {| ok := false |} eq_refl eq_refl).
  - destruct (C6_submitOrder offline market_order showing_one)
      as (_ & _ & _ & _ & _ & Hnet & _).
    exact (Hnet _ eq_refl).
  - destruct (C6_submitOrder
               (answering {| ok := true |} (rejected (SyntaxError "Unexpected token")))
               market_order showing_one) as (_ & _ & _ & _ & _ & _ & Hparse & _).
    exact (Hparse {| ok := true |} _ eq_refl eq_refl eq_refl).
Defined.

(** C7: [fetchOrders] raises the busy flag before it suspends and always
    ends fulfilled with the flag down; an ok response whose body carries
    the server's array of orders replaces the list by that array; a failed
    request or a body that cannot be read leaves the list as the store
    held it at that moment, and so does a response that is not ok. *)
Theorem C7_fetchOrders w s :
  let p := fetch "/api/orders" None in
  let s1 := meanwhile w p (set_isLoading true s) in
  let s2 response := meanwhile w (Response_json response) s1 in
  (∃ k, advance fetchOrders s = (Suspended p k, set_isLoading true s))
  ∧ (run w fetchOrders s).1 = inr ()
  ∧ isLoading (run w fetchOrders s).2 = false
  ∧ (∀ response data l,
       settle w p = fulfilled response → ok response = true →
       settle w (Response_json response) = fulfilled data →
       get data "orders" = inr (VArr l) →
       run w fetchOrders s = (inr (), {| orders := VArr l; isLoading := false |}))
  ∧ (∀ e,
       settle w p = rejected e →
       run w fetchOrders s = (inr (), set_isLoading false s1))
  ∧ (∀ response e,
       settle w p = fulfilled response → ok response = true →
       settle w (Response_json response) = rejected e →
       run w fetchOrders s = (inr (), set_isLoading false (s2 response)))
  ∧ (∀ response,
       settle w p = fulfilled response → ok response = false →
       run w fetchOrders s = (inr (), set_isLoading false s1)).
Proof.
  intros p s1 s2. pose proof (fetchOrders_run w s) as Hrun.
  cbv zeta in Hrun. fold p in Hrun. fold s1 in Hrun.
  split; [apply fetchOrders_start|].
  split; [|split]; [..|repeat split].
  - rewrite Hrun. by run_cases.
  - rewrite Hrun. by run_cases.
  - intros response data l Hp Hok Hjson Horders.
    by rewrite Hrun, Hp, Hok, Hjson, Horders.
  - intros e Hp. by rewrite Hrun, Hp.
  - intros response e Hp Hok Hjson. by rewrite Hrun, Hp, Hok, Hjson.
  - intros response Hp Hok. by rewrite Hrun, Hp, Hok.
Qed.

Lemma C7_fetchOrders_witness :
  run (answering {| ok := true |} (fulfilled (Server.json (Server.listing [stop_limit_order]))))
      fetchOrders showing_one
    = (inr (), {| orders := VArr [stop_limit_order]; isLoading := false |})
  ∧ run offline fetchOrders showing_one = (inr (), showing_one)
  ∧ run (answering {| ok := true |} (rejected (SyntaxError "Unexpected token")))
        fetchOrders showing_one
    = (inr (), showing_one).
Proof.
  split; [|split].
  - destruct (C7_fetchOrders
               (answering {| ok := true |}
                  (fulfilled (Server.json (Server.listing [stop_limit_order]))))
               showing_one) as (_ & _ & _ & Hok & _).
    exact (Hok {| ok := true |} _ [stop_limit_order] eq_refl eq_refl eq_refl eq_refl).
  - destruct (C7_fetchOrders offline showing_one) as (_ & _ & _ & _ & Hnet & _).
    exact (Hnet _ eq_refl).
  - destruct (C7_fetchOrders
               (answering {| ok := true |} (rejected (SyntaxError "Unexpected token")))
               showing_one) as (_ & _ & _ & _ & _ & Hparse & _).
    exact (Hparse {| ok := true |} _ eq_refl eq_refl eq_refl).
Defined.

(** C10: when the response is ok and its parsed body has no truthy
    [orders] property, [fetchOrders] replaces the list by the empty list,
    whatever the store held. *)
Theorem C10_fetchOrders_without_orders w s response data data_orders :
  settle w (fetch "/api/orders" None) = fulfilled response →
  ok response = true →
  settle w (Response_json response) = fulfilled data →
  get data "orders" = inr data_orders →
  ToBoolean data_orders = false →
  run w fetchOrders s = (inr (), {| orders := VArr []; isLoading := false |}).
Proof.
  intros Hp Hok Hjson Horders Hfalsy.
  rewrite fetchOrders_run. cbv zeta.
  rewrite Hp, Hok, Hjson, Horders. unfold or_value. by rewrite Hfalsy.
Qed.

Lemma C10_fetchOrders_without_orders_witness :
  get (object []) "orders" = inr VUndefined
  ∧ run (answering {| ok := true |} (fulfilled (object []))) fetchOrders showing_one
    = (inr (), {| orders := VArr []; isLoading := false |}).
Proof.
  split; [reflexivity|].
  exact (C10_fetchOrders_without_orders
           (answering {| ok := true |} (fulfilled (object []))) showing_one
           {| ok := true |} (object []) VUndefined
           eq_refl eq_refl eq_refl eq_refl eq_refl).
Defined.

End Store.

(** ** More on the server: answers, logs, stored records *)

Section ServerLog.
Import Js Server Registry Scenario.

(** X1: no request makes a handler throw: each is answered with status
    200, 201, 400 or 500. A 400 answer leaves the registry as it was. 500
    is the answer only to a create request, in two cases: its body is
    [null] or [undefined], and the registry is as it was; or its body
    passed the check and was appended, and writing the stored [id] to the
    log threw. *)
Theorem every_request_answered r orders :
  ∃ response,
    (handle r orders).1 = inr response
    ∧ status response ∈ [200; 201; 400; 500]%N
    ∧ (status response = 400%N → (handle r orders).2 = orders)
    ∧ (status response = 500%N →
         ∃ env body, r = POST_order env body
           ∧ (nullish body = true ∧ (handle r orders).2 = orders
              ∨ has_required body = true
                ∧ ToString_fails (stored_id env body) = true
                ∧ (handle r orders).2 = orders ++ [stored_order env body])).
Proof.
  destruct r as [env body| |]; cbn [handle].
  - rewrite post_order_eval. destruct (has_required body) eqn:Hreq.
    + unfold accepted_answer.
      destruct (ToString_fails (stored_id env body)) eqn:Hlog;
        eexists; (split; [done|]); (split; [set_solver|]); (split; [done|]).
      * intros _. exists env, body. split; [done|]. right. by repeat split.
      * done.
    + destruct (nullish body) eqn:Hnull; eexists; (split; [done|]);
        (split; [set_solver|]); (split; [done|]).
      * intros _. exists env, body. split; [done|]. left. by split.
      * done.
  - eexists. split; [by rewrite get_orders_eval|]. split; [set_solver|].
    by split.
  - eexists. split; [by rewrite delete_orders_eval|]. split; [set_solver|].
    by split.
Qed.

Lemma every_request_answered_witness :
  ∃ response,
    (handle (POST_order env1 unloggable_id) []).1 = inr response
    ∧ status response = 500%N
    ∧ (handle (POST_order env1 unloggable_id) []).2 = [stored_order env1 unloggable_id].
Proof.
  destruct (every_request_answered (POST_order env1 unloggable_id) [])
    as (response & Hanswer & _ & _ & H500).
  exists response. split; [exact Hanswer|].
  assert (status response = 500%N) as Hstatus.
  { vm_compute in Hanswer. injection Hanswer as <-. reflexivity. }
  split; [exact Hstatus|].
  destruct (H500 Hstatus) as (env & body & Hr & [[Hnull _]|(_ & _ & Hstored)]).
  - injection Hr as <- <-. discriminate Hnull.
  - injection Hr as <- <-. exact Hstored.
Defined.

(** X2: as long as no clear request is served, the registry only grows:
    it is the old registry followed by the stored records of the create
    requests that passed the check, in arrival order; list requests and
    rejected create requests leave no trace. *)
Theorem serve_without_clear rs orders :
  Forall (λ r, is_clear r = false) rs →
  (serve rs orders).2 = orders ++ (rs ≫= appended).
Proof.
  intros Hrs. revert orders.
  induction Hrs as [|r rs Hr _ IH]; intros orders; simpl.
  - by rewrite app_nil_r.
  - destruct (handle r orders) as [answer orders'] eqn:Hhandle.
    specialize (IH orders'). destruct (serve rs orders') as [answers orders''].
    simpl in *. rewrite IH, app_assoc. f_equal.
    destruct r as [env body| |]; simpl in *; [| |done].
    + rewrite post_order_eval in Hhandle.
      destruct (has_required body); [by injection Hhandle as _ <-|].
      rewrite app_nil_r. by destruct (nullish body); injection Hhandle as _ <-.
    + rewrite app_nil_r. by injection Hhandle as _ <-.
Qed.

Lemma serve_without_clear_witness :
  (serve [POST_order env1 market_order; POST_order env1 missing_side; GET_orders;
          POST_order env3 stop_limit_order] []).2
  = [stored_order env1 market_order; stored_order env3 stop_limit_order].
Proof.
  exact (serve_without_clear
           [POST_order env1 market_order; POST_order env1 missing_side; GET_orders;
            POST_order env3 stop_limit_order] []
           ltac:(repeat constructor)).
Defined.

(** X3: a clear request makes the server forget everything before it: the
    requests after it are answered, and leave the registry, as on a server
    that has just started. *)
Theorem clear_forgets rs1 rs2 orders :
  serve (rs1 ++ DELETE_orders :: rs2) orders =
    ((serve rs1 orders).1
       ++ inr (cleared (length (serve rs1 orders).2)) :: (serve rs2 []).1,
     (serve rs2 []).2).
Proof.
  rewrite serve_app. destruct (serve rs1 orders) as [answers1 orders1].
  simpl. by destruct (serve rs2 []).
Qed.

(** X4: the stored record has exactly the members of the body plus [id]
    and [timestamp]: nothing the client sent is dropped, whatever its
    name, and every member other than those two keeps the body's value. *)
Theorem stored_order_members env o :
  ∃ m, stored_order env (VObj o) = VObj m
    ∧ dom m = dom o ∪ {["id"; "timestamp"]}
    ∧ ∀ k, k ≠ "id" → k ≠ "timestamp" → m !! k = o !! k.
Proof.
  eexists. split; [reflexivity|]. cbn [foldl define own_props]. split.
  - rewrite dom_insert_L, dom_union_L, dom_insert_L, dom_empty_L.
    apply set_eq. intros k. set_unfold. tauto.
  - intros k Hid Hts. rewrite lookup_insert_ne by done.
    destruct (o !! k) as [v|] eqn:Hk.
    + by erewrite lookup_union_Some_l.
    + rewrite lookup_union_r by done. by rewrite lookup_insert_ne, lookup_empty.
Qed.

(** X5: a create request that passes the check appends a record and is
    answered 201 with that very record, unless writing the record's [id]
    to the log throws: then the answer is 500 although the record is
    stored. The record's [timestamp] is always the server's rendering of
    its clock, and its [id] is the body's own [id] when the body has one
    and the generated id otherwise. *)
Theorem created_id_and_timestamp env body orders :
  has_required body = true →
  ∃ order,
    (post_order env body orders).2 = orders ++ [order]
    ∧ (post_order env body orders).1
      = (if ToString_fails (stored_id env body) then inr create_failed
         else inr (created order))
    ∧ get order "timestamp" = inr (VStr (toISOString (new_Date env)))
    ∧ get order "id" = inr match own_props body !! "id" with
                           | Some v => v
                           | None => VStr (generateId env)
                           end.
Proof.
  intros Hreq. exists (stored_order env body).
  rewrite post_order_eval, Hreq. split; [done|]. split; [done|].
  split; [apply stored_order_timestamp|apply stored_order_get_id].
Qed.

Lemma created_id_and_timestamp_witness :
  has_required with_client_id = true
  ∧ (∃ order,
       post_order env1 with_client_id [] = (inr (created order), [order])
       ∧ get order "timestamp" = inr (VStr "2024-01-15T10:30:00.000Z")
       ∧ get order "id" = inr (VStr "order_1"))
  ∧ has_required unloggable_id = true
  ∧ post_order env1 unloggable_id []
    = (inr create_failed, [stored_order env1 unloggable_id]).
Proof.
  split; [reflexivity|]. split; [|split; [reflexivity|]].
  - destruct (created_id_and_timestamp env1 with_client_id [] eq_refl)
      as (order & Hstored & Hanswer & Hts & Hid).
    exists order. split; [|split; [exact Hts|exact Hid]].
    apply injective_projections; [exact Hanswer|exact Hstored].
  - destruct (created_id_and_timestamp env1 unloggable_id [] eq_refl)
      as (order & Hstored & Hanswer & _ & _).
    apply injective_projections; [exact Hanswer|].
    rewrite Hstored. vm_compute in Hstored |- *.
    by injection Hstored as <-.
Defined.

(** X6: in every reachable state each stored order is an object that has
    an [id] member and whose [timestamp] is the ISO rendering of some
    clock reading. *)
Theorem registry_records orders :
  reachable orders →
  Forall (λ order, ∃ o t, order = VObj o
                          ∧ o !! "timestamp" = Some (VStr (toISOString t))
                          ∧ is_Some (o !! "id")) orders.
Proof.
  induction 1 as [|r orders _ IH]; [constructor|].
  destruct r as [env body| |]; cbn [handle].
  - rewrite post_order_eval. destruct (has_required body) eqn:Hreq.
    + apply Forall_app. split; [done|]. constructor; [|constructor].
      eexists _, (new_Date env). split; [reflexivity|].
      cbn [foldl define]. split; [by rewrite lookup_insert_eq|].
      rewrite lookup_insert_ne by done.
      destruct (own_props body !! "id") as [v|] eqn:Hid.
      * erewrite lookup_union_Some_l; eauto.
      * rewrite lookup_union_r by done. rewrite lookup_insert_eq. eauto.
    + by destruct (nullish body).
  - done.
  - constructor.
Qed.

Lemma registry_records_witness :
  reachable [stored_order env1 limit_without_price]
  ∧ Forall (λ order, ∃ o t, order = VObj o
                            ∧ o !! "timestamp" = Some (VStr (toISOString t))
                            ∧ is_Some (o !! "id"))
      [stored_order env1 limit_without_price].
Proof.
  split; [apply limit_without_price_reachable|].
  exact (registry_records _ limit_without_price_reachable).
Defined.

Lemma substring_length n m s :
  String.length (String.substring n m s) = (m `min` (String.length s - n))%nat.
Proof.
  revert n m. induction s as [|c s IH]; intros [|n] [|m];
    cbn [String.substring String.length]; rewrite ?IH; lia.
Qed.

(** X7: a generated id is "order_", the decimal clock reading, "_" and a
    random part of at most nine characters: as many as the text of the
    random draw has after its first two, nine at most. *)
Theorem generateId_random_part env :
  ∃ suffix,
    generateId env = "order_" +:+ pretty (Date_now env) +:+ "_" +:+ suffix
    ∧ String.length suffix
      = (9 `min` (String.length (Math_random_base36 env) - 2))%nat
    ∧ ¬ occurs "_" (pretty (Date_now env)).
Proof.
  eexists. split; [reflexivity|]. split.
  - apply substring_length.
  - apply pretty_Z_underscore.
Qed.

End ServerLog.

(** ** More on the store: the list it keeps *)

Section StoreList.
Import Js OrderStore Scenario.

(** X9: [fetchOrders] guards only against a falsy [data.orders]: any
    truthy value, array or not, becomes the store's list as it is. *)
Theorem fetchOrders_keeps_truthy w s response data data_orders :
  settle w (fetch "/api/orders" None) = fulfilled response →
  ok response = true →
  settle w (Response_json response) = fulfilled data →
  get data "orders" = inr data_orders →
  ToBoolean data_orders = true →
  run w fetchOrders s = (inr (), {| orders := data_orders; isLoading := false |}).
Proof.
  intros Hp Hok Hjson Horders Htruthy.
  rewrite fetchOrders_run. cbv zeta.
  rewrite Hp, Hok, Hjson, Horders. unfold or_value. by rewrite Htruthy.
Qed.

Lemma fetchOrders_keeps_truthy_witness :
  run (answering {| ok := true |} (fulfilled (object [field "orders" (VStr "none")])))
      fetchOrders showing_one
  = (inr (), {| orders := VStr "none"; isLoading := false |}).
Proof.
  exact (fetchOrders_keeps_truthy
           (answering {| ok := true |} (fulfilled (object [field "orders" (VStr "none")])))
           showing_one {| ok := true |} _ (VStr "none")
           eq_refl eq_refl eq_refl eq_refl eq_refl).
Defined.

(** X10: once the store's list is not an array, [submitOrder] resolves
    [false] on every ok response, also one that carries the created order,
    and leaves the list as it is. *)
Theorem submitOrder_needs_array w orderData s response :
  let p := fetch "/api/order" (Some (post_init orderData)) in
  let s2 := meanwhile w (Response_json response)
              (meanwhile w p (set_isLoading true s)) in
  settle w p = fulfilled response →
  ok response = true →
  (∀ l, orders s2 ≠ VArr l) →
  run w (submitOrder orderData) s = (inr false, set_isLoading false s2).
Proof.
  intros p s2 Hp Hok Hno. rewrite submitOrder_run. cbv zeta.
  fold p. rewrite Hp, Hok. fold s2.
  destruct (settle w (Response_json response)) as [data|e]; [|done].
  destruct (get data "order"); [done|].
  destruct (orders s2) eqn:Hs2; try done. by destruct (Hno l).
Qed.

Lemma submitOrder_needs_array_witness :
  run (answering {| ok := true |}
         (fulfilled (Server.json (Server.created stop_limit_order))))
      (submitOrder stop_limit_order) {| orders := VStr "none"; isLoading := false |}
  = (inr false, {| orders := VStr "none"; isLoading := false |}).
Proof.
  apply (submitOrder_needs_array
           (answering {| ok := true |}
              (fulfilled (Server.json (Server.created stop_limit_order))))
           stop_limit_order {| orders := VStr "none"; isLoading := false |}
           {| ok := true |} eq_refl eq_refl).
  intros l Hl. discriminate Hl.
Defined.

End StoreList.

(** ** The table *)

Section Rendering.
Import Js OrderStore OrderTable Page Scenario.
Context (fmt : Formatter).

(** A row can be built exactly for a displayable order. *)
Lemma row_displayable order :
  displayable order = true →
  ∃ id symbol orderType quantity price stopPrice side timestamp shown_price shown_stop,
    get order "id" = inr id ∧ get order "symbol" = inr symbol
    ∧ get order "orderType" = inr orderType ∧ get order "quantity" = inr quantity
    ∧ get order "price" = inr price ∧ get order "stopPrice" = inr stopPrice
    ∧ get order "side" = inr side ∧ get order "timestamp" = inr timestamp
    ∧ formatPrice fmt price = inr shown_price
    ∧ formatPrice fmt stopPrice = inr shown_stop
    ∧ row fmt order =
        inr {| key := id; symbol := symbol; orderType := orderType;
               quantity := quantity; price := shown_price; stopPrice := shown_stop;
               side_is_buy := is_Buy side; side := side;
               time := toLocaleString fmt timestamp |}.
Proof.
  unfold displayable, row. intros Hshown.
  apply andb_prop in Hshown as [Hshown Hkey].
  apply andb_prop in Hshown as [Hshown Htime].
  apply andb_prop in Hshown as [Hprice Hstop].
  assert (∀ k, ∃ v, get order k = inr v) as Hget.
  { intros k. destruct order; try (by simpl in Hprice); by eexists. }
  destruct (Hget "id") as [id Hid], (Hget "symbol") as [symbol Hsymbol],
    (Hget "orderType") as [orderType HorderType], (Hget "quantity") as [quantity Hquantity],
    (Hget "price") as [price Hp], (Hget "stopPrice") as [stopPrice Hsp],
    (Hget "side") as [side Hside], (Hget "timestamp") as [timestamp Hts].
  rewrite Hp in Hprice. rewrite Hsp in Hstop.
  rewrite Hts in Htime. rewrite Hid in Hkey. cbn [convertible] in Htime, Hkey.
  apply negb_true_iff in Htime, Hkey.
  assert (∀ v, price_shown (inr v) = true → ∃ shown, formatPrice fmt v = inr shown)
    as Hformat.
  { intros []; try done; by eexists. }
  destruct (Hformat _ Hprice) as [shown_price Hshown_price].
  destruct (Hformat _ Hstop) as [shown_stop Hshown_stop].
  exists id, symbol, orderType, quantity, price, stopPrice, side, timestamp,
    shown_price, shown_stop.
  rewrite Hid, Hsymbol, HorderType, Hquantity, Hp, Hsp, Hside, Hts.
  repeat (split; [done|]).
  unfold mbind, throwing_bind, formatTimestamp, coerce_key, ToString.
  rewrite Hshown_price, Hshown_stop, Htime, Hkey. unfold mbind, throwing_bind.
  by destruct id.
Qed.

Lemma formatPrice_shown v :
  price_shown (inr v) = true → ∃ shown, formatPrice fmt v = inr shown.
Proof. destruct v; try done; by eexists. Qed.

Lemma formatPrice_not_shown v :
  price_shown (inr v) = false → ∃ e, formatPrice fmt v = inl e.
Proof. destruct v; try done; by eexists. Qed.

Lemma row_not_displayable order :
  displayable order = false → ∃ e, row fmt order = inl e.
Proof.
  unfold displayable, row. intros Hshown.
  destruct order as [| |b|n|s|l|o]; try discriminate Hshown; [by eexists..|].
  cbn [get] in *. unfold mbind, throwing_bind, formatTimestamp, coerce_key, ToString.
  destruct (price_shown (inr (default VUndefined (o !! "price")))) eqn:Hp;
    [destruct (formatPrice_shown _ Hp) as [shown_price ->]
    |destruct (formatPrice_not_shown _ Hp) as [e ->]; by eexists].
  destruct (price_shown (inr (default VUndefined (o !! "stopPrice")))) eqn:Hsp;
    [destruct (formatPrice_shown _ Hsp) as [shown_stop ->]
    |destruct (formatPrice_not_shown _ Hsp) as [e ->]; by eexists].
  cbn [andb convertible] in Hshown. unfold mbind, throwing_bind.
  destruct (ToString_fails (default VUndefined (o !! "timestamp"))); [by eexists|].
  cbn [negb andb] in Hshown. apply negb_false_iff in Hshown.
  destruct (default VUndefined (o !! "id")); try discriminate Hshown;
    rewrite Hshown; by eexists.
Qed.

Lemma mapM_row_cons order l :
  mapM (row fmt) (order :: l) =
    match row fmt order with
    | inr r => match mapM (row fmt) l with
               | inr rows => inr (r :: rows)
               | inl e => inl e
               end
    | inl e => inl e
    end.
Proof. reflexivity. Qed.

Lemma map_rows_displayable l :
  Forall (λ order, displayable order = true) l →
  ∃ rows, mapM (row fmt) l = inr rows ∧ Forall2 (λ order r, row fmt order = inr r) l rows.
Proof.
  induction 1 as [|order l Horder _ (rows & Hrows & Hall)].
  - by exists [].
  - destruct (row_displayable _ Horder) as (?&?&?&?&?&?&?&?&?&?&_&_&_&_&_&_&_&_&_&_&Hrow).
    eexists. rewrite mapM_row_cons, Hrow, Hrows.
    split; [reflexivity|]. by constructor.
Qed.

Lemma map_rows_not_displayable l :
  Exists (λ order, displayable order = false) l → ∃ e, mapM (row fmt) l = inl e.
Proof.
  induction l as [|order l IH]; intros Hex; [by apply Exists_nil in Hex|].
  rewrite mapM_row_cons.
  destruct (displayable order) eqn:Horder.
  - destruct (row_displayable _ Horder) as (?&?&?&?&?&?&?&?&?&?&_&_&_&_&_&_&_&_&_&_&Hrow).
    rewrite Hrow. apply Exists_cons in Hex as [Hex|Hex]; [congruence|].
    destruct (IH Hex) as [e ->]. by eexists.
  - destruct (row_not_displayable _ Horder) as [e ->]. by eexists.
Qed.

(** A list that holds an order that is not displayable makes the
    component throw. *)
Lemma OrderTable_not_displayable s l :
  isLoading s = false → orders s = VArr l →
  Exists (λ order, displayable order = false) l → ∃ e, OrderTable fmt s = inl e.
Proof.
  intros Hidle Hl Hex. unfold OrderTable. rewrite Hidle, Hl.
  destruct (map_rows_not_displayable l Hex) as [e Hrows].
  destruct l; [by apply Exists_nil in Hex|].
  cbn [length_is_zero length Nat.eqb mbind throwing_bind map_rows].
  rewrite Hrows. by eexists.
Qed.

(** X11: when the store is not busy and its list is an array, the
    component function returns exactly when every order in the list is
    displayable (not [null] or [undefined], with [price] and [stopPrice]
    each absent or a number, and with an [id] and a [timestamp] that can
    be converted to a primitive); it then returns the empty state for an
    empty list, and otherwise one row per order, in the order of the list,
    each built from its own order. If some order is not displayable it
    throws. *)
Theorem OrderTable_renders s l :
  isLoading s = false → orders s = VArr l →
  (Forall (λ order, displayable order = true) l →
     ∃ rows, OrderTable fmt s = inr (if l is [] then Empty else Table rows)
       ∧ Forall2 (λ order r, row fmt order = inr r) l rows)
  ∧ (Exists (λ order, displayable order = false) l → ∃ e, OrderTable fmt s = inl e).
Proof.
  intros Hidle Hl. unfold OrderTable. rewrite Hidle, Hl. split.
  - intros Hall. destruct (map_rows_displayable l Hall) as (rows & Hrows & Hall2).
    exists rows. split; [|done].
    destruct l; [done|]. cbn [length_is_zero length Nat.eqb mbind throwing_bind map_rows].
    by rewrite Hrows.
  - intros Hex. destruct (OrderTable_not_displayable s l Hidle Hl Hex) as [e He].
    exists e. revert He. unfold OrderTable. by rewrite Hidle, Hl.
Qed.

(** X12: a cell of the two price columns reads "N/A" exactly for an order
    without that price, and the rupee sign followed by [toFixed(2)] of the
    number otherwise. *)
Theorem price_cells order r :
  row fmt order = inr r →
  (get order "price" = inr VUndefined ∧ price r = "N/A"
   ∨ ∃ n, get order "price" = inr (VNum n) ∧ price r = "₹" +:+ toFixed fmt n 2)
  ∧ (get order "stopPrice" = inr VUndefined ∧ stopPrice r = "N/A"
     ∨ ∃ n, get order "stopPrice" = inr (VNum n)
            ∧ stopPrice r = "₹" +:+ toFixed fmt n 2).
Proof.
  intros Hrow. destruct (displayable order) eqn:Horder.
  - destruct (row_displayable _ Horder)
      as (id&symbol&orderType&quantity&p&sp&side&ts&shown_p&shown_sp&
          _&_&_&_&Hp&Hsp&_&_&Hfp&Hfsp&Hrow').
    rewrite Hrow' in Hrow. injection Hrow as <-. cbn [price stopPrice].
    rewrite Hp, Hsp. split.
    + destruct p; try discriminate Hfp; injection Hfp as <-; eauto.
    + destruct sp; try discriminate Hfsp; injection Hfsp as <-; eauto.
  - destruct (row_not_displayable _ Horder) as [e He]. congruence.
Qed.

(** X20: when the store is not busy and its list is not an array, the
    table never shows rows: it is the empty-state view or cannot be built
    at all. *)
Theorem OrderTable_needs_array s :
  isLoading s = false → (∀ l, orders s ≠ VArr l) →
  OrderTable fmt s = inr Empty ∨ ∃ e, OrderTable fmt s = inl e.
Proof.
  intros Hidle Hno. unfold OrderTable. rewrite Hidle.
  destruct (orders s) as [| |b|n|str|l|o] eqn:Hs;
    cbn [length_is_zero mbind throwing_bind map_rows fmap throwing_fmap];
    try (right; by eexists).
  - destruct (String.eqb str ""); [by left|right; by eexists].
  - by destruct (Hno l).
  - destruct (match o !! "length" with Some (VNum n) => PrimFloat.is_zero n | _ => false end);
      [by left|right; by eexists].
Qed.

(** X16: the server accepts and stores an order whose [price] or
    [stopPrice] is neither absent nor a number ([null], a string, ...),
    with that price; and the component throws on every list, of a store
    that is not busy, that holds an order with such a price. *)
Theorem unshowable_price_breaks_table env body orders :
  Server.has_required body = true →
  price_shown (get body "price") && price_shown (get body "stopPrice") = false →
  (Server.post_order env body orders).2 = orders ++ [Server.stored_order env body]
  ∧ get (Server.stored_order env body) "price" = get body "price"
  ∧ get (Server.stored_order env body) "stopPrice" = get body "stopPrice"
  ∧ ∀ s l order,
      isLoading s = false → OrderStore.orders s = VArr l → order ∈ l →
      price_shown (get order "price") && price_shown (get order "stopPrice") = false →
      ∃ e, OrderTable fmt s = inl e.
Proof.
  intros Hreq Hshown. split; [by rewrite post_order_eval, Hreq|].
  destruct (has_required_object _ Hreq) as [o ->].
  rewrite !stored_order_copies by done. do 2 (split; [done|]).
  intros s l order Hidle Hl Hin Horder.
  apply (OrderTable_not_displayable s l Hidle Hl).
  apply Exists_exists. exists order. split; [done|].
  unfold displayable. by rewrite Horder.
Qed.

(** X18: an ok response whose body has no [order] makes [submitOrder]
    push [undefined] and resolve [true]; the table cannot be built from
    the list it leaves. *)
Theorem missing_order_breaks_table w orderData s response data l :
  let p := fetch "/api/order" (Some (post_init orderData)) in
  settle w p = fulfilled response →
  ok response = true →
  settle w (Response_json response) = fulfilled data →
  get data "order" = inr VUndefined →
  orders (meanwhile w (Response_json response) (meanwhile w p (set_isLoading true s)))
    = VArr l →
  run w (submitOrder orderData) s
    = (inr true, {| orders := VArr (l ++ [VUndefined]); isLoading := false |})
  ∧ ∃ e, OrderTable fmt (run w (submitOrder orderData) s).2 = inl e.
Proof.
  intros p Hp Hok Hjson Horder Hl.
  assert (run w (submitOrder orderData) s
          = (inr true, {| orders := VArr (l ++ [VUndefined]); isLoading := false |}))
    as Hrun.
  { rewrite submitOrder_run. cbv zeta. fold p.
    by rewrite Hp, Hok, Hjson, Horder, Hl. }
  split; [exact Hrun|]. rewrite Hrun.
  apply (OrderTable_not_displayable _ (l ++ [VUndefined])); [done..|].
  apply Exists_app. right. by constructor.
Qed.

End Rendering.

(** ** What the store sends and receives *)

Section Traffic.
Import Js OrderStore OrderTable Page Scenario.

Lemma created_order_member order :
  get (Server.json (Server.created order)) "order" = inr order.
Proof.
  unfold Server.created, object. cbn [Server.json foldl define get].
  by rewrite lookup_insert_eq.
Qed.

Lemma listing_orders_member l :
  get (Server.json (Server.listing l)) "orders" = inr (VArr l).
Proof.
  unfold Server.listing, object. cbn [Server.json foldl define get].
  rewrite lookup_insert_ne by done. by rewrite lookup_insert_eq.
Qed.

(** X17: when a list response that already holds the new order arrives
    while [submitOrder] is still reading its own response, the new order
    ends up twice in the tab's list. *)
Theorem fetch_during_submit_duplicates orderData order registry s :
  run (with_interruption
         (backend (inr (Server.created order)))
         (λ s, (run (backend (inr (Server.listing (registry ++ [order]))))
                    fetchOrders s).2))
      (submitOrder orderData) s
  = (inr true, {| orders := VArr (registry ++ [order; order]); isLoading := false |}).
Proof.
  rewrite submitOrder_run. cbv zeta.
  cbn [settle meanwhile with_interruption backend Server.status Server.created ok].
  change (Server.json _) with (Server.json (Server.created order)).
  rewrite created_order_member, fetchOrders_run. cbv zeta.
  cbn [settle meanwhile backend Server.status Server.listing ok snd orders].
  change (Server.json _) with (Server.json (Server.listing (registry ++ [order]))).
  rewrite listing_orders_member.
  change (status_ok 201) with true. change (status_ok 200) with true.
  cbn [or_value ToBoolean orders snd]. by rewrite <-app_assoc.
Qed.

(** X19: the store talks to the server through two calls only:
    [fetchOrders] sends one GET to [/api/orders], [submitOrder] sends one
    POST to [/api/order] with the order data as body, however the
    responses turn out; [addOrder], [setOrders], [clearOrders] and
    [setLoading] send nothing. No action of the store sends a DELETE, so
    nothing the store does clears the server's registry. *)
Theorem store_requests w s orderData order list loading :
  sent w fetchOrders s = [("/api/orders", None)]
  ∧ sent w (submitOrder orderData) s = [("/api/order", Some (post_init orderData))]
  ∧ sent w (addOrder order) s = []
  ∧ sent w (setOrders list) s = []
  ∧ sent w clearOrders s = []
  ∧ sent w (setLoading loading) s = []
  ∧ Forall (λ call, method_of call ≠ "DELETE")
      (sent w fetchOrders s ++ sent w (submitOrder orderData) s).
Proof.
  assert (sent w fetchOrders s = [("/api/orders", None)]) as Hfetch.
  { cbn. destruct (settle w _) as [response|e]; [|reflexivity]. cbn.
    destruct (ok response); [|reflexivity]. cbn.
    destruct (settle w _) as [data|e]; [|reflexivity]. cbn.
    by destruct (get data "orders"). }
  assert (sent w (submitOrder orderData) s
          = [("/api/order", Some (post_init orderData))]) as Hsubmit.
  { cbn. destruct (settle w _) as [response|e]; [|reflexivity]. cbn.
    destruct (ok response); [|reflexivity]. cbn.
    destruct (settle w _) as [data|e]; [|reflexivity]. cbn.
    destruct (get data "order"); [reflexivity|]. cbn.
    by destruct (orders _). }
  rewrite Hfetch, Hsubmit. repeat split; try reflexivity.
  - cbn. by destruct (orders s).
  - by repeat constructor.
Qed.

End Traffic.

Section Examples.
Import Js OrderStore OrderTable Page Scenario Browser.

Lemma OrderTable_needs_array_witness :
  ∃ e, OrderTable sample_formatter {| orders := VStr "none"; isLoading := false |} = inl e.
Proof.
  destruct (OrderTable_needs_array sample_formatter
              {| orders := VStr "none"; isLoading := false |} eq_refl
              ltac:(intros l Hl; discriminate Hl)) as [Hempty|Hfail].
  - discriminate Hempty.
  - exact Hfail.
Defined.

Lemma OrderTable_renders_witness :
  (∃ rows, OrderTable sample_formatter showing_two = inr (Table rows)
           ∧ length rows = 2%nat)
  ∧ ∃ e, OrderTable sample_formatter
           {| orders := VArr [Server.stored_order env1 market_order; VNull];
              isLoading := false |} = inl e.
Proof.
  split.
  - destruct (OrderTable_renders sample_formatter showing_two _ eq_refl eq_refl)
      as [Hgood _].
    destruct Hgood as (rows & Hview & Hrows); [by repeat constructor|].
    exists rows. split; [exact Hview|].
    by rewrite <-(Forall2_length _ _ _ Hrows).
  - destruct (OrderTable_renders sample_formatter
                {| orders := VArr [Server.stored_order env1 market_order; VNull];
                   isLoading := false |} _ eq_refl eq_refl) as [_ Hbad].
    apply Hbad. apply Exists_cons_tl. by constructor.
Defined.

Lemma price_cells_witness :
  ∃ r, row sample_formatter (Server.stored_order env1 market_order) = inr r
       ∧ price r = "N/A" ∧ stopPrice r = "N/A".
Proof.
  eexists. split; [by vm_compute|].
  destruct (price_cells sample_formatter (Server.stored_order env1 market_order) _
              ltac:(by vm_compute)) as [[[_ Hp]|(n & Hn & _)] [[_ Hsp]|(m & Hm & _)]];
    try (by vm_compute in Hn); try (by vm_compute in Hm).
  by split.
Defined.

Lemma unshowable_price_breaks_table_witness :
  Server.has_required null_price_order = true
  ∧ (Server.post_order env1 null_price_order []).2
    = [Server.stored_order env1 null_price_order]
  ∧ get (Server.stored_order env1 null_price_order) "price" = inr VNull
  ∧ ∃ e, OrderTable sample_formatter
           {| orders := VArr [Server.stored_order env1 null_price_order];
              isLoading := false |} = inl e.
Proof.
  destruct (unshowable_price_breaks_table sample_formatter env1 null_price_order []
              eq_refl eq_refl)
    as (Hstored & Hprice & _ & Hthrows).
  split; [reflexivity|]. split; [exact Hstored|]. split; [exact Hprice|].
  apply (Hthrows _ [Server.stored_order env1 null_price_order]
                 (Server.stored_order env1 null_price_order));
    [reflexivity|reflexivity|apply list_elem_of_here|reflexivity].
Defined.

Lemma missing_order_breaks_table_witness :
  run (answering {| ok := true |} (fulfilled (object [])))
      (submitOrder market_order) showing_one
    = (inr true,
       {| orders := VArr [Server.stored_order env1 market_order; VUndefined];
          isLoading := false |})
  ∧ ∃ e, OrderTable sample_formatter
           (run (answering {| ok := true |} (fulfilled (object [])))
                (submitOrder market_order) showing_one).2 = inl e.
Proof.
  exact (missing_order_breaks_table sample_formatter
           (answering {| ok := true |} (fulfilled (object [])))
           market_order showing_one {| ok := true |} (object [])
           [Server.stored_order env1 market_order]
           eq_refl eq_refl eq_refl eq_refl eq_refl).
Defined.

End Examples.
